(** * varc: volatile artifact collection

    A shallow embedding of [varc_core/systems/base_system.py] (class
    [BaseSystem]) and [varc_core/systems/linux.py] (class [LinuxSystem]),
    with the properties of the acquisition run stated over it.

    Conventions.
    - A Python [str] is a [string]; its characters are the code points
      below 256.  A Python [bytes] is a [list byte].  A Python [int] is a [Z].
    - The host (psutil, the file system, the screen, [/proc], the
      [process_vm_readv] system call) is a record [Env] of oracles.  An
      oracle is a function of its arguments: the same question asked twice
      in one run gets the same answer.  The size of a file is asked of two
      oracles, one for the time the open files are listed and one for the
      time they are copied.  Opening the archive succeeds, and so does
      writing into it an entry whose content the run holds: the
      screenshot, the tables, the network log.
    - Memory is there for the buffer of a region read:
      [ctypes.create_string_buffer] gives a buffer for every length that is
      not negative.  In CPython a length too large for the machine raises
      [OverflowError] or [MemoryError] before the system call is made, and
      no clause of [dump_processes] handles either: what is proved of
      [read_bytes] and of the region loop is proved of reads whose buffer
      was made.
    - A write to the scratch file that raises nothing has stored the whole
      block; the count [tmpfile.write] returns is not looked at by the
      source.
    - [os.path.getsize] and [zip_file.write], when an open file is copied,
      may raise any exception: the two the source handles and those it
      lets through.
    - A method of the class is a computation in the monad [M]: it threads
      the object [self], the archives on disk and the trace of what was
      asked of the host, and it either returns or raises. *)

From stdpp Require Import gmap strings list pretty.
From Stdlib Require Import ZArith Ascii String Lia.
From Stdlib Require Import Init.Byte.

Open Scope string_scope.
Open Scope list_scope.
Open Scope Z_scope.

(** A Python [bytes]. *)
Abbreviation bytes := (list Init.Byte.byte).

(** ** Characters and strings *)

Module Str.

Definition code (c : ascii) : N := N_of_ascii c.

Definition between (lo hi : N) (c : ascii) : bool :=
  ((lo <=? code c) && (code c <=? hi))%N.

(** The character class [[a-fA-F0-9]]. *)
Definition is_hex (c : ascii) : bool :=
  between 48 57 c || between 97 102 c || between 65 70 c.

(** The character class [\s] of a [str] pattern: the characters on which
    [str.isspace] holds, among the code points below 256. *)
Definition is_space (c : ascii) : bool :=
  between 9 13 c || between 28 32 c
  || (code c =? 133)%N || (code c =? 160)%N.

(** [int(c, 16)] for one hexadecimal digit. *)
Definition hex_digit (c : ascii) : Z :=
  if between 48 57 c then Z.of_N (code c) - 48
  else if between 97 102 c then Z.of_N (code c) - 87
  else if between 65 70 c then Z.of_N (code c) - 55
  else 0.

(** [int(s, 16)], for [s] made of hexadecimal digits. *)
Fixpoint int16_from (acc : Z) (s : string) : Z :=
  match s with
  | EmptyString => acc
  | String c s' => int16_from (16 * acc + hex_digit c) s'
  end.

Definition int16 (s : string) : Z := int16_from 0 s.

(** The longest prefix of [s] whose characters satisfy [p], and the rest. *)
Fixpoint span (p : ascii -> bool) (s : string) : string * string :=
  match s with
  | EmptyString => (EmptyString, EmptyString)
  | String c s' =>
      if p c then let '(a, b) := span p s' in (String c a, b)
      else (EmptyString, s)
  end.

Fixpoint all (p : ascii -> bool) (s : string) : bool :=
  match s with
  | EmptyString => true
  | String c s' => p c && all p s'
  end.

Definition is_empty (s : string) : bool :=
  match s with EmptyString => true | _ => false end.

(** [str.lower] on one code point below 256. *)
Definition lower_char (c : ascii) : ascii :=
  if between 65 90 c || between 192 214 c || between 216 222 c
  then ascii_of_N (code c + 32)
  else c.

Fixpoint lower (s : string) : string :=
  match s with
  | EmptyString => EmptyString
  | String c s' => String (lower_char c) (lower s')
  end.

(** [list(s)]: the one-character strings of [s]. *)
Fixpoint chars (s : string) : list string :=
  match s with
  | EmptyString => []
  | String c s' => String c EmptyString :: chars s'
  end.

(** [sep.join(l)]. *)
Fixpoint join (sep : string) (l : list string) : string :=
  match l with
  | [] => ""
  | [x] => x
  | x :: l' => x +:+ sep +:+ join sep l'
  end.

(** [s.endswith(suffix)]. *)
Definition endswith (s suffix : string) : bool :=
  let n := String.length s in
  let k := String.length suffix in
  if (k <=? n)%nat
  then String.eqb (String.substring (n - k) k s) suffix
  else false.

End Str.

(** ** Exceptions *)

Inductive exn :=
| AttributeError
| ValueError
| OSError
| PermissionError
| FileNotFoundError
| NoSuchProcess
| AccessDenied
| ScreenShotError.

#[global] Instance exn_eq_dec : EqDecision exn.
Proof. solve_decision. Defined.

(** [issubclass(e, cls)] for the classes an [except] clause of the source
    names: [PermissionError] and [FileNotFoundError] derive from [OSError];
    the psutil and mss exceptions derive from [Exception] only. *)
Definition subclass (e cls : exn) : bool :=
  match cls, e with
  | OSError, (OSError | PermissionError | FileNotFoundError) => true
  | _, _ => bool_decide (e = cls)
  end.

Inductive res (A : Type) :=
| Ret (a : A)
| Raise (e : exn).
Arguments Ret {A} a.
Arguments Raise {A} e.

(** ** The memory-layout record ([linux.py], [parse_mem_map]) *)

Module Maps.

(** [re.match(r"([a-fA-F0-9]+)-([a-fA-F0-9]+)\s(r|-)", line)]: the three
    groups of the match, or [None].  A group [[a-fA-F0-9]+] is greedy and
    the character after it is not a hexadecimal digit, so each group is
    the longest run of hexadecimal digits where it starts. *)
Definition re_match (line : string) : option (string * string * ascii) :=
  let '(g1, r1) := Str.span Str.is_hex line in
  if Str.is_empty g1 then None else
  match r1 with
  | String "-" r2 =>
      let '(g2, r3) := Str.span Str.is_hex r2 in
      if Str.is_empty g2 then None else
      match r3 with
      | String ws (String flag _) =>
          if Str.is_space ws
             && (Ascii.eqb flag "r" || Ascii.eqb flag "-")
          then Some (g1, g2, flag)
          else None
      | _ => None
      end
  | _ => None
  end.

(** What the pattern accepts, read off the pattern: a non-empty run of
    hexadecimal digits, a dash, a second such run, one white-space
    character and the flag, then anything. *)
Definition matches (line g1 g2 : string) (flag : ascii) : Prop :=
  exists ws rest,
    line = g1 +:+ String "-" (g2 +:+ String ws (String flag rest))
    /\ g1 <> "" /\ Str.all Str.is_hex g1 = true
    /\ g2 <> "" /\ Str.all Str.is_hex g2 = true
    /\ Str.is_space ws = true
    /\ (flag = "r"%char \/ flag = "-"%char).

(** The body of the [for line in map_content] loop: [line_groups.group(3)]
    on a line that does not match is an attribute access on [None]. *)
Definition parse_line (line : string)
  : res (option (Z * Z)) :=
  match re_match line with
  | None => Raise AttributeError
  | Some (g1, g2, flag) =>
      if Ascii.eqb flag "r"
      then Ret (Some (Str.int16 g1, Str.int16 g2))
      else Ret None
  end.

(** The loop, with [map_addresses] as accumulator. *)
Fixpoint parse_lines (map_addresses : list (Z * Z)) (lines : list string)
  : res (list (Z * Z)) :=
  match lines with
  | [] => Ret map_addresses
  | line :: lines' =>
      match parse_line line with
      | Raise e => Raise e
      | Ret None => parse_lines map_addresses lines'
      | Ret (Some r) => parse_lines (map_addresses ++ [r]) lines'
      end
  end.

End Maps.

(** ** The host *)

(** psutil's [addr] and [sconn]: an address that is not known is the empty
    tuple, which is false in a condition; it is [None] here. *)
Record addr := { ip : string; port : Z }.

Record sconn := {
  laddr : option addr;
  raddr : option addr;
  conn_pid : option Z
}.

(** The command line psutil reports: a string on Windows, a list on Linux
    and OSX, [None] when access is denied. *)
Inductive cmdline_t :=
| CmdStr (s : string)
| CmdList (l : list string)
| CmdNone.

(** [psutil.Process.as_dict()], with the keys the source reads.  A value
    psutil could not get is [None]. *)
Record proc_dict := {
  pid : Z;
  name : string;
  username : option string;
  status : string;
  exe : option string;
  cmdline : cmdline_t;
  ppid : option Z;
  create_time : Z;
  open_files : option (list string);
  connections : option (list sconn);
  memory_maps : option (list string)
}.

(** What [zip_file.write(file_path, ...)] does with an open file: it
    stores the content, or it raises [PermissionError] ([CopyDenied]),
    [FileNotFoundError] ([CopyVanished]) or the exception [e]
    ([CopyRaised e]). *)
Inductive copy_outcome :=
| Copied (content : list byte)
| CopyDenied
| CopyVanished
| CopyRaised (e : exn).

Record Env := {
  (* socket.gethostname() *)
  gethostname : string;
  (* varc_core.utils.string_manips, not part of the two modules *)
  remove_special_characters : string -> string;
  strip_drive : string -> string;
  (* datetime.now().strftime("%Y-%m-%d %H:%M:%S") *)
  now_str : string;
  (* str(datetime.timestamp(datetime.now())) *)
  timestamp_str : string;
  (* str(time.time()) *)
  time_str : string;
  (* datetime.utcfromtimestamp(t).strftime('%Y-%m-%d %H:%M:%S') *)
  strftime_utc : Z -> string;
  (* [p.as_dict() for p in psutil.process_iter()] *)
  process_iter : list proc_dict;
  (* psutil.Process(pid).as_dict() *)
  Process : Z -> res proc_dict;
  (* psutil.Process(pid).name() *)
  Process_name : option Z -> res string;
  (* psutil.net_connections() *)
  net_connections : res (list sconn);
  (* the size of a file when the open files are listed; None: no such file *)
  stat_listing : string -> option Z;
  (* os.path.getsize when the open files are copied: the size, or None
     when it raises, and then the exception it raises *)
  stat_copy : string -> option Z;
  getsize_error : string -> exn;
  (* reading the file into the archive *)
  zip_write_file : string -> copy_outcome;
  (* mss: grab and encode all monitors; None: ScreenShotError *)
  grab : option (list byte);
  (* Path("/proc/<pid>/maps").open().readlines() *)
  proc_maps : Z -> res (list string);
  (* process_vm_readv(pid, dst, 1, src, 1, 0) for src = (address, byte):
     the value returned and the bytes put in the buffer *)
  process_vm_readv : Z -> Z -> Z -> Z * list byte;
  (* tmpfile.write(block), by what the scratch file holds already *)
  tmpfile_write : list byte -> list byte -> res unit;
  (* zip_file.write(tmpfile.name, arcname) *)
  zip_write_tmp : string -> list byte -> res unit
}.

(** ** The archive, the object and the trace *)

Inductive jval :=
| JStr (s : string)
| JInt (n : Z)
| JNone.

(** A row of a table: the keys in the order of the dict literal. *)
Definition row := list (string * jval).

(** What an archive entry holds.  [PTable rows] stands for
    [json.dumps({"format": "CadoJsonTable", "rows": rows}, ...).encode()]
    and [PText s] for [s.encode()]. *)
Inductive payload :=
| PBytes (b : list byte)
| PText (s : string)
| PTable (rows : list row).

Abbreviation entry := (string * payload)%type.

Inductive level := Info | Warning | Error.

Inductive event :=
| Log (lvl : level) (msg : string)
| EvProcessIter
| EvProcess (p : Z)
| EvNetConnections
| EvProcessName (p : option Z)
| EvGrab
| EvZipOpen (path : string)
| EvZipEntry (path name : string)
| EvZipClose (path : string)
| EvProcMaps (p : Z)
| EvVmReadv (p address byte : Z)
| EvExtractDumps (path : string).

(** The row [get_processes] builds for a process. *)
Record proc_row := {
  Process_ID : Z;
  Name : string;
  Username : option string;
  Status : string;
  Executable_Path : option string;
  Command : string;
  Parent_ID : option Z;
  Creation_Time : string;
  Open_Files : string;
  Connections : string;
  Mapped_Filepaths : string
}.

(** The attributes of the object.  An attribute is listed with the value
    it has before its first assignment; the source reads none of them
    before it assigns it. *)
Record Self := {
  todays_date : string;
  timestamp : string;
  process_name : option string;
  process_id : option Z;
  extract_dumps : bool;
  include_memory : bool;
  include_open : bool;
  process_info : list proc_row;
  network_log : list string;
  dumped_files : list string;
  output_path : string;
  zip_path : string
}.

Definition new_object : Self :=
  {| todays_date := ""; timestamp := ""; process_name := None;
     process_id := None; extract_dumps := false; include_memory := false;
     include_open := false; process_info := []; network_log := [];
     dumped_files := []; output_path := ""; zip_path := "" |}.

(** [self.field = v]. *)
Definition set_todays_date (v : string) (s : Self) : Self :=
  {| todays_date := v; timestamp := timestamp s;
     process_name := process_name s; process_id := process_id s;
     extract_dumps := extract_dumps s; include_memory := include_memory s;
     include_open := include_open s; process_info := process_info s;
     network_log := network_log s; dumped_files := dumped_files s;
     output_path := output_path s; zip_path := zip_path s |}.

Definition set_timestamp (v : string) (s : Self) : Self :=
  {| todays_date := todays_date s; timestamp := v;
     process_name := process_name s; process_id := process_id s;
     extract_dumps := extract_dumps s; include_memory := include_memory s;
     include_open := include_open s; process_info := process_info s;
     network_log := network_log s; dumped_files := dumped_files s;
     output_path := output_path s; zip_path := zip_path s |}.

Definition set_process_name (v : option string) (s : Self) : Self :=
  {| todays_date := todays_date s; timestamp := timestamp s;
     process_name := v; process_id := process_id s;
     extract_dumps := extract_dumps s; include_memory := include_memory s;
     include_open := include_open s; process_info := process_info s;
     network_log := network_log s; dumped_files := dumped_files s;
     output_path := output_path s; zip_path := zip_path s |}.

Definition set_process_id (v : option Z) (s : Self) : Self :=
  {| todays_date := todays_date s; timestamp := timestamp s;
     process_name := process_name s; process_id := v;
     extract_dumps := extract_dumps s; include_memory := include_memory s;
     include_open := include_open s; process_info := process_info s;
     network_log := network_log s; dumped_files := dumped_files s;
     output_path := output_path s; zip_path := zip_path s |}.

Definition set_extract_dumps (v : bool) (s : Self) : Self :=
  {| todays_date := todays_date s; timestamp := timestamp s;
     process_name := process_name s; process_id := process_id s;
     extract_dumps := v; include_memory := include_memory s;
     include_open := include_open s; process_info := process_info s;
     network_log := network_log s; dumped_files := dumped_files s;
     output_path := output_path s; zip_path := zip_path s |}.

Definition set_include_memory (v : bool) (s : Self) : Self :=
  {| todays_date := todays_date s; timestamp := timestamp s;
     process_name := process_name s; process_id := process_id s;
     extract_dumps := extract_dumps s; include_memory := v;
     include_open := include_open s; process_info := process_info s;
     network_log := network_log s; dumped_files := dumped_files s;
     output_path := output_path s; zip_path := zip_path s |}.

Definition set_include_open (v : bool) (s : Self) : Self :=
  {| todays_date := todays_date s; timestamp := timestamp s;
     process_name := process_name s; process_id := process_id s;
     extract_dumps := extract_dumps s; include_memory := include_memory s;
     include_open := v; process_info := process_info s;
     network_log := network_log s; dumped_files := dumped_files s;
     output_path := output_path s; zip_path := zip_path s |}.

Definition set_process_info (v : list proc_row) (s : Self) : Self :=
  {| todays_date := todays_date s; timestamp := timestamp s;
     process_name := process_name s; process_id := process_id s;
     extract_dumps := extract_dumps s; include_memory := include_memory s;
     include_open := include_open s; process_info := v;
     network_log := network_log s; dumped_files := dumped_files s;
     output_path := output_path s; zip_path := zip_path s |}.

Definition set_network_log (v : list string) (s : Self) : Self :=
  {| todays_date := todays_date s; timestamp := timestamp s;
     process_name := process_name s; process_id := process_id s;
     extract_dumps := extract_dumps s; include_memory := include_memory s;
     include_open := include_open s; process_info := process_info s;
     network_log := v; dumped_files := dumped_files s;
     output_path := output_path s; zip_path := zip_path s |}.

Definition set_dumped_files (v : list string) (s : Self) : Self :=
  {| todays_date := todays_date s; timestamp := timestamp s;
     process_name := process_name s; process_id := process_id s;
     extract_dumps := extract_dumps s; include_memory := include_memory s;
     include_open := include_open s; process_info := process_info s;
     network_log := network_log s; dumped_files := v;
     output_path := output_path s; zip_path := zip_path s |}.

Definition set_output_path (v : string) (s : Self) : Self :=
  {| todays_date := todays_date s; timestamp := timestamp s;
     process_name := process_name s; process_id := process_id s;
     extract_dumps := extract_dumps s; include_memory := include_memory s;
     include_open := include_open s; process_info := process_info s;
     network_log := network_log s; dumped_files := dumped_files s;
     output_path := v; zip_path := zip_path s |}.

Definition set_zip_path (v : string) (s : Self) : Self :=
  {| todays_date := todays_date s; timestamp := timestamp s;
     process_name := process_name s; process_id := process_id s;
     extract_dumps := extract_dumps s; include_memory := include_memory s;
     include_open := include_open s; process_info := process_info s;
     network_log := network_log s; dumped_files := dumped_files s;
     output_path := output_path s; zip_path := v |}.

Record World := {
  self : Self;
  disk : gmap string (list entry);
  trace : list event
}.

Definition initial_world : World :=
  {| self := new_object; disk := ∅; trace := [] |}.

(** ** The monad of methods *)

Definition M (A : Type) : Type := World -> res A * World.

Definition ret {A} (a : A) : M A := fun w => (Ret a, w).

Definition raise {A} (e : exn) : M A := fun w => (Raise e, w).

Definition bind {A B} (m : M A) (k : A -> M B) : M B :=
  fun w =>
    match m w with
    | (Ret a, w') => k a w'
    | (Raise e, w') => (Raise e, w')
    end.

Notation "'do' x <- m ; k" := (bind m (fun x => k))
  (at level 10, x name, m at level 100, k at level 200).
Notation "'run' m ; k" := (bind m (fun _ => k))
  (at level 10, m at level 100, k at level 200).

Definition lift {A} (r : res A) : M A := fun w => (r, w).

Definition get_self : M Self := fun w => (Ret (self w), w).

Definition set_self (f : Self -> Self) : M unit :=
  fun w => (Ret tt, {| self := f (self w); disk := disk w; trace := trace w |}).

Definition emit (e : event) : M unit :=
  fun w => (Ret tt, {| self := self w; disk := disk w; trace := trace w ++ [e] |}).

(** [try: m except cls: h], for the exceptions [cls] accepts. *)
Definition try_except {A} (m : M A) (cls : exn) (h : M A) : M A :=
  fun w =>
    match m w with
    | (Raise e, w') => if subclass e cls then h w' else (Raise e, w')
    | r => r
    end.

(** [for x in l: body(x)]. *)
Fixpoint for_each {A} (l : list A) (body : A -> M unit) : M unit :=
  match l with
  | [] => ret tt
  | x :: l' => run body x; for_each l' body
  end.

Definition when (b : bool) (m : M unit) : M unit :=
  if b then m else ret tt.

(** *** The archive *)

(** [with zipfile.ZipFile(path, "a", ...) as zip_file: body]: the file is
    created when it is not there, and it is closed when the body returns
    and when it raises. *)
Definition with_zip {A} (path : string) (body : M A) : M A :=
  fun w =>
    let w1 := {| self := self w;
                 disk := <[path := default [] (disk w !! path)]> (disk w);
                 trace := trace w ++ [EvZipOpen path] |} in
    let '(r, w2) := body w1 in
    (r, {| self := self w2; disk := disk w2;
           trace := trace w2 ++ [EvZipClose path] |}).

(** One entry appended to the archive at [path]. *)
Definition zip_entry (path ename : string) (p : payload) : M unit :=
  fun w =>
    (Ret tt,
     {| self := self w;
        disk := <[path := default [] (disk w !! path) ++ [(ename, p)]]> (disk w);
        trace := trace w ++ [EvZipEntry path ename] |}).

(** The names of the entries of the archive at [path]. *)
Definition entry_names (d : gmap string (list entry)) (path : string)
  : list string :=
  (default [] (d !! path)).*1.

(** *** Truth values of the conditions of the source *)

Definition truthy_str (s : option string) : bool :=
  match s with
  | Some s => negb (Str.is_empty s)
  | None => false
  end.

Definition truthy_int (n : option Z) : bool :=
  match n with
  | Some n => negb (n =? 0)
  | None => false
  end.

Definition truthy_list {A} (l : option (list A)) : bool :=
  match l with
  | Some (_ :: _) => true
  | _ => false
  end.

(** A bound method ([self.take_screenshot], [self.dump_loaded_files]) is
    true in a condition. *)
Definition truthy_method : bool := true.

(** [try: m except cls1: h1 except cls2: h2 ...]: the first clause whose
    class accepts the exception handles it; an exception no clause accepts
    goes on. *)
Fixpoint handler_for {A} (e : exn) (clauses : list (exn * M A))
  : option (M A) :=
  match clauses with
  | [] => None
  | (cls, h) :: clauses' =>
      if subclass e cls then Some h else handler_for e clauses'
  end.

Definition try_excepts {A} (m : M A) (clauses : list (exn * M A)) : M A :=
  fun w =>
    match m w with
    | (Raise e, w') =>
        match handler_for e clauses with
        | Some h => h w'
        | None => (Raise e, w')
        end
    | r => r
    end.

Definition crlf : string :=
  String (ascii_of_nat 13) (String (ascii_of_nat 10) EmptyString).

Definition fmt_int (n : Z) : string := pretty n.

(** ** [base_system.py] *)

Definition _MAX_OPEN_FILE_SIZE : Z := 10000000.

(** The arguments of [BaseSystem.__init__]. *)
Record InitArgs := {
  arg_process_name : option string;
  arg_process_id : option Z;
  arg_take_screenshot : bool;
  arg_include_memory : bool;
  arg_include_open : bool;
  arg_extract_dumps : bool
}.

Section BaseSystem.

Variable env : Env.

Definition get_machine_name : string :=
  remove_special_characters env (gethostname env).

(** The loop of [get_network], with [network] as accumulator. *)
Fixpoint network_lines (conns : list sconn) (network : list string)
  : M (list string) :=
  match conns with
  | [] => ret network
  | conn :: conns' =>
      match laddr conn, raddr conn with
      | Some l, Some r =>
          run emit (EvProcessName (conn_pid conn));
          do pname <- lift (Process_name env (conn_pid conn));
          let log_line :=
            now_str env +:+ " " +:+ ip l +:+ " " +:+ fmt_int (port l)
            +:+ " " +:+ ip r +:+ " " +:+ fmt_int (port r)
            +:+ " " +:+ pname in
          network_lines conns' (network ++ [log_line])
      | _, _ => network_lines conns' network
      end
  end.

Definition get_network : M (list string) :=
  do conns <-
    try_except
      (run emit EvNetConnections; lift (net_connections env))
      AccessDenied
      (run emit (Log Error "Access denied attempting to get network connections");
       ret []);
  network_lines conns [].

Definition get_processes_dict : M (list proc_dict) :=
  do s <- get_self;
  if truthy_int (process_id s) then
    let p := default 0 (process_id s) in
    run emit (EvProcess p);
    do d <- lift (Process env p);
    ret [d]
  else if truthy_str (process_name s) then
    let wanted := Str.lower (default "" (process_name s)) in
    run emit EvProcessIter;
    ret (List.filter (fun d => String.eqb (Str.lower (name d)) wanted)
           (process_iter env))
  else
    run emit EvProcessIter;
    ret (process_iter env).

(** The loop of [dump_loaded_files] over the processes, with the three
    lists as accumulators.  [exe_paths += proc_exe] extends the list by
    the characters of the string [proc_exe]. *)
Fixpoint collect_paths (process_choice : list proc_dict)
    (open_files_acc mapped_filepaths exe_paths : list string)
  : list string * list string * list string :=
  match process_choice with
  | [] => (open_files_acc, mapped_filepaths, exe_paths)
  | process :: rest =>
      let open_files_acc :=
        if truthy_list (open_files process)
        then open_files_acc ++ default [] (open_files process)
        else open_files_acc in
      let mapped_filepaths :=
        if truthy_list (memory_maps process)
        then mapped_filepaths ++ default [] (memory_maps process)
        else mapped_filepaths in
      let exe_paths :=
        if truthy_str (exe process)
        then exe_paths ++ Str.chars (default "" (exe process))
        else exe_paths in
      collect_paths rest open_files_acc mapped_filepaths exe_paths
  end.

(** [len(path) > 1 and os.path.exists(path) and os.path.getsize(path)]. *)
Definition keep_path (path : string) : bool :=
  (1 <? String.length path)%nat
  && match stat_listing env path with
     | Some size => negb (size =? 0)
     | None => false
     end.

Definition dump_loaded_files : M (list string) :=
  do process_choice <- get_processes_dict;
  let '(open_files_acc, mapped_filepaths, exe_paths) :=
    collect_paths process_choice [] [] [] in
  let paths :=
    elements (list_to_set (open_files_acc ++ mapped_filepaths ++ exe_paths)
              : gset string) in
  ret (List.filter keep_path paths).

(** The lines of the [Connections] column. *)
Fixpoint connection_lines (conns : list sconn) : list string :=
  match conns with
  | [] => []
  | conn :: conns' =>
      match laddr conn, raddr conn with
      | Some l, Some r =>
          (time_str env +:+ " " +:+ ip l +:+ " " +:+ fmt_int (port l)
           +:+ " " +:+ ip r +:+ " " +:+ fmt_int (port r))
          :: connection_lines conns'
      | _, _ => connection_lines conns'
      end
  end.

Definition process_row (process : proc_dict) : proc_row :=
  let open_files_str := Str.join " " (default [] (open_files process)) in
  let cmd_line :=
    match cmdline process with
    | CmdStr s => s
    | CmdList l => Str.join " " l
    | CmdNone => ""
    end in
  let conns := connection_lines (default [] (connections process)) in
  let mapped := default [] (memory_maps process) in
  {| Process_ID := pid process; Name := name process;
     Username := username process; Status := status process;
     Executable_Path := exe process; Command := cmd_line;
     Parent_ID := ppid process;
     Creation_Time := strftime_utc env (create_time process);
     Open_Files := open_files_str;
     Connections := Str.join crlf conns;
     Mapped_Filepaths := Str.join "," mapped |}.

Definition get_processes : M (list proc_row) :=
  do process_choice <- get_processes_dict;
  ret (map process_row process_choice).

Definition jstr (s : option string) : jval :=
  match s with Some s => JStr s | None => JNone end.

Definition jint (n : option Z) : jval :=
  match n with Some n => JInt n | None => JNone end.

Definition row_of_process (r : proc_row) : row :=
  [("Process ID", JInt (Process_ID r)); ("Name", JStr (Name r));
   ("Username", jstr (Username r)); ("Status", JStr (Status r));
   ("Executable Path", jstr (Executable_Path r));
   ("Command", JStr (Command r)); ("Parent ID", jint (Parent_ID r));
   ("Creation Time", JStr (Creation_Time r));
   ("Open Files", JStr (Open_Files r));
   ("Connections", JStr (Connections r));
   ("Mapped Filepaths", JStr (Mapped_Filepaths r))].

Definition dict_to_json (rows : list row) : payload := PTable rows.

Definition take_screenshot : M (option (list byte)) :=
  try_except
    (run emit EvGrab;
     do png <- lift (match grab env with
                     | Some png => Ret png
                     | None => Raise ScreenShotError
                     end);
     ret (Some png))
    ScreenShotError
    (run emit (Log Error "Unable to take screenshot");
     ret None).

(** The body of the loop over [self.dumped_files] in [acquire_volatile]. *)
Definition copy_open_file (archive_out file_path : string) : M unit :=
  run emit (Log Info ("Adding open file " +:+ file_path));
  try_except
    (do size <- lift (match stat_copy env file_path with
                      | Some size => Ret size
                      | None => Raise (getsize_error env file_path)
                      end);
     if size >? _MAX_OPEN_FILE_SIZE then
       emit (Log Warning ("Skipping file as too large " +:+ file_path))
     else
       try_except
         (match zip_write_file env file_path with
          | Copied content =>
              zip_entry archive_out (strip_drive env file_path)
                (PBytes content)
          | CopyDenied => raise PermissionError
          | CopyVanished => raise FileNotFoundError
          | CopyRaised e => raise e
          end)
         PermissionError
         (emit (Log Warning ("Permission denied copying " +:+ file_path))))
    FileNotFoundError
    (emit (Log Warning ("Could not open " +:+ file_path +:+ " for reading"))).

Definition truthy_bytes (b : option (list byte)) : bool := truthy_list b.

Definition screenshot_name (s : Self) : string :=
  get_machine_name +:+ "-" +:+ timestamp s +:+ ".png".

Definition acquire_volatile (output_path_arg : option string) : M string :=
  do pinfo <- get_processes;
  run set_self (set_process_info pinfo);
  do nlog <- get_network;
  run set_self (set_network_log nlog);
  do s0 <- get_self;
  do dumped <- (if include_open s0 then dump_loaded_files else ret []);
  run set_self (set_dumped_files dumped);
  do s <- get_self;
  let table_data :=
    [("processes", dict_to_json (map row_of_process (process_info s)));
     ("open_files",
      dict_to_json (map (fun f => [("Open File", JStr f)]) (dumped_files s)))] in
  do screenshot <- (if truthy_method then take_screenshot else ret None);
  let out :=
    if truthy_str output_path_arg then default "" output_path_arg
    else get_machine_name +:+ "-" +:+ timestamp s +:+ ".zip" in
  let archive_out :=
    if negb (Str.endswith out ".zip") then out +:+ ".zip" else out in
  run set_self (set_output_path out);
  run with_zip archive_out
    (run when (truthy_bytes screenshot)
       (zip_entry archive_out (screenshot_name s)
          (PBytes (default [] screenshot)));
     run for_each table_data
       (fun kv => zip_entry archive_out (fst kv +:+ ".json") (snd kv));
     run when (negb (bool_decide (network_log s = [])))
       (run emit (Log Info "Adding Netstat Data");
        zip_entry archive_out "netstat.log"
          (PText (Str.join crlf (network_log s))));
     when truthy_method
       (for_each (dumped_files s) (copy_open_file archive_out)));
  ret archive_out.

Definition BaseSystem_init (a : InitArgs) : M unit :=
  run set_self (set_todays_date (now_str env));
  run emit (Log Info ("Acquiring system: " +:+ get_machine_name
                      +:+ ", at " +:+ now_str env));
  run set_self (set_timestamp (timestamp_str env));
  run set_self (set_process_name (arg_process_name a));
  run set_self (set_process_id (arg_process_id a));
  run set_self (set_extract_dumps (arg_extract_dumps a));
  run set_self (set_include_memory (arg_include_memory a));
  run set_self (set_include_open (arg_include_open a));
  do s <- get_self;
  if truthy_str (process_name s) && truthy_int (process_id s) then
    raise ValueError
  else
    do zp <- acquire_volatile None;
    set_self (set_zip_path zp).

End BaseSystem.

(** ** [linux.py] *)

Section LinuxSystem.

Variable env : Env.

(** [os.sep] on Linux. *)
Definition sep : string := "/".

Definition parse_mem_map (pid : Z) (p_name : string) : M (list (Z * Z)) :=
  try_excepts
    (run emit (EvProcMaps pid);
     do map_content <- lift (proc_maps env pid);
     lift (Maps.parse_lines [] map_content))
    [(FileNotFoundError,
      run emit (Log Warning
        ("Could not parse memory map for " +:+ p_name +:+ " (pid "
         +:+ fmt_int pid +:+ "). Cannot dump this process."));
      ret []);
     (PermissionError,
      run emit (Log Warning
        ("Permission denied parsing memory map for " +:+ p_name +:+ " (pid "
         +:+ fmt_int pid +:+ "). Cannot dump this process."));
      ret [])].

(** [buff.raw] after the call: the [byte] bytes of the buffer, which
    starts as zeros and holds what the call put in it. *)
Definition buff_raw (byte : Z) (data : bytes) : bytes :=
  let n := Z.to_nat byte in
  take n data ++ replicate (n - List.length data)%nat x00.

(** [ctypes.create_string_buffer(byte)] is the array type
    [c_char * byte], which a negative length refuses with a
    [ValueError].  For any other length the buffer is taken to be made
    (see the conventions). *)
Definition read_bytes (pid address byte : Z) : M (option bytes) :=
  if byte <? 0 then raise ValueError
  else
    run emit (EvVmReadv pid address byte);
    let '(linux_syscall, data) := process_vm_readv env pid address byte in
    if linux_syscall =? -1 then ret None
    else ret (Some (buff_raw byte data)).

(** The loop over [maps] in [dump_processes]; [sink] is what the
    scratch file holds, a write that raises nothing having stored its
    block (see the conventions). *)
Fixpoint read_regions (pid : Z) (maps : list (Z * Z)) (sink : list byte)
  : M (list byte) :=
  match maps with
  | [] => ret sink
  | map :: maps' =>
      let page_start := fst map in
      let page_len := snd map - fst map in
      do mem_page_content <- read_bytes pid page_start page_len;
      if truthy_bytes mem_page_content then
        let block := default [] mem_page_content in
        run lift (tmpfile_write env sink block);
        read_regions pid maps' (sink ++ block)
      else read_regions pid maps' sink
  end.

Definition dump_name (p_name : string) (pid : Z) : string :=
  "process_dumps" +:+ sep +:+ p_name +:+ "_" +:+ fmt_int pid +:+ ".mem".

(** The body of the loop over [self.process_info] in [dump_processes].
    The text of the [OSError] is left out of the warning. *)
Definition dump_process (archive_out : string) (proc : proc_row) : M unit :=
  let pid := Process_ID proc in
  let p_name := Name proc in
  do maps <- parse_mem_map pid p_name;
  if bool_decide (maps = []) then ret tt
  else
    try_excepts
      (do sink <- read_regions pid maps [];
       run lift (zip_write_tmp env (dump_name p_name pid) sink);
       zip_entry archive_out (dump_name p_name pid) (PBytes sink))
      [(PermissionError,
        emit (Log Warning
          ("Permission denied opening process memory for " +:+ p_name
           +:+ " (pid " +:+ fmt_int pid
           +:+ "). Cannot dump this process.")));
       (OSError,
        emit (Log Warning
          ("Error opening process memory page for " +:+ p_name
           +:+ " (pid " +:+ fmt_int pid
           +:+ "). Dump may be incomplete.")))].

Definition dump_processes : M unit :=
  do s <- get_self;
  let archive_out := output_path s in
  run with_zip archive_out
    (for_each (process_info s) (dump_process archive_out));
  emit (Log Info ("Dumping processing has completed. Output file is located: "
                  +:+ archive_out)).

(** [LinuxSystem.__init__]; the options it does not name reach
    [BaseSystem.__init__] through [**kwargs]. *)
Definition LinuxSystem_init (a : InitArgs) : M unit :=
  run BaseSystem_init env a;
  do s <- get_self;
  when (include_memory s)
    (run dump_processes;
     do s' <- get_self;
     when (extract_dumps s') (emit (EvExtractDumps (output_path s')))).

End LinuxSystem.

(** ** Worlds a method leaves *)

(** The world [w] after the events [t]. *)
Definition add_trace (t : list event) (w : World) : World :=
  {| self := self w; disk := disk w; trace := trace w ++ t |}.

(** The choice [get_processes_dict] makes, by the two selectors. *)
Definition process_choice (env : Env) (pname : option string)
    (p : option Z) : res (list proc_dict) :=
  if truthy_int p then
    match Process env (default 0 p) with
    | Ret d => Ret [d]
    | Raise e => Raise e
    end
  else if truthy_str pname then
    Ret (List.filter
           (fun d => String.eqb (Str.lower (name d))
                       (Str.lower (default "" pname)))
           (process_iter env))
  else Ret (process_iter env).

(** What [get_processes_dict] asks of psutil. *)
Definition selector_event (p : option Z) : event :=
  if truthy_int p then EvProcess (default 0 p) else EvProcessIter.

(** The line [__init__] logs first. *)
Definition banner (env : Env) : event :=
  Log Info ("Acquiring system: " +:+ get_machine_name env
            +:+ ", at " +:+ now_str env).

(** The world when [__init__] reaches its check of the selectors. *)
Definition configured (env : Env) (a : InitArgs) (w : World) : World :=
  {| self :=
       set_include_open (arg_include_open a)
         (set_include_memory (arg_include_memory a)
            (set_extract_dumps (arg_extract_dumps a)
               (set_process_id (arg_process_id a)
                  (set_process_name (arg_process_name a)
                     (set_timestamp (timestamp_str env)
                        (set_todays_date (now_str env) (self w)))))));
     disk := disk w;
     trace := trace w ++ [banner env] |}.

(** What [__init__] does after the check. *)
Definition acquisition (env : Env) : M unit :=
  do zp <- acquire_volatile env None;
  set_self (set_zip_path zp).

(** The world [w] with the two selectors of the object set. *)
Definition with_selectors (pname : option string) (p : option Z)
    (w : World) : World :=
  {| self := set_process_id p (set_process_name pname (self w));
     disk := disk w; trace := trace w |}.

(** A method that only adds to the trace. *)
Definition extends {A} (m : M A) : Prop :=
  forall w, exists t, trace (snd (m w)) = trace w ++ t.

(** The paths [dump_loaded_files] gathers from the processes, before the
    set is made. *)
Definition candidates (ps : list proc_dict) : list string :=
  let '(open_files_acc, mapped_filepaths, exe_paths) :=
    collect_paths ps [] [] [] in
  open_files_acc ++ mapped_filepaths ++ exe_paths.

(** The world in which the body of [with zipfile.ZipFile(path, "a")]
    starts. *)
Definition opened (path : string) (w : World) : World :=
  {| self := self w;
     disk := <[path := default [] (disk w !! path)]> (disk w);
     trace := trace w ++ [EvZipOpen path] |}.


(** ** Example hosts *)

Module Host.

(** One process with four open files, one of them mapped. *)
Definition cat : proc_dict :=
  {| pid := 7; name := "cat"; username := Some "root";
     status := "running"; exe := Some "/bin/cat";
     cmdline := CmdList ["cat"; "/tmp/a"]; ppid := Some 1;
     create_time := 0;
     open_files := Some ["/tmp/a"; "/tmp/big"; "/tmp/exact"; "/tmp/zero"];
     connections := None;
     memory_maps := Some ["/tmp/a"] |}.

Definition sizes (path : string) : option Z :=
  if String.eqb path "/tmp/a" then Some 10
  else if String.eqb path "/tmp/big" then Some 10000001
  else if String.eqb path "/tmp/exact" then Some 10000000
  else if String.eqb path "/tmp/zero" then Some 0
  else if String.eqb path "/bin/cat" then Some 35000
  else None.

(** A host, by its connections, its answer to a name lookup, the memory
    layout of its processes and the answer of [process_vm_readv]. *)
Definition host (conns : res (list sconn))
    (names : option Z -> res string)
    (maps : Z -> res (list string))
    (readv : Z -> Z -> Z -> Z * bytes) : Env :=
  {| gethostname := "lab";
     remove_special_characters := fun s => s;
     strip_drive := fun s => s;
     now_str := "2024-01-01 00:00:00";
     timestamp_str := "1704067200.5";
     time_str := "1704067200.6";
     strftime_utc := fun _ => "1970-01-01 00:00:00";
     process_iter := [cat];
     Process := fun p => if p =? 7 then Ret cat else Raise NoSuchProcess;
     Process_name := names;
     net_connections := conns;
     stat_listing := sizes;
     stat_copy := sizes;
     getsize_error := fun _ => FileNotFoundError;
     zip_write_file := fun _ => Copied [x2a];
     grab := Some [x89; x50; x4e; x47];
     proc_maps := maps;
     process_vm_readv := readv;
     tmpfile_write := fun _ _ => Ret tt;
     zip_write_tmp := fun _ _ => Ret tt |}.

Definition established : sconn :=
  {| laddr := Some {| ip := "10.0.0.2"; port := 22 |};
     raddr := Some {| ip := "10.0.0.9"; port := 50000 |};
     conn_pid := Some 4242 |}.

Definition layout (p : Z) : res (list string) :=
  Ret ["1000-1004 r-xp 00000000 08:01 131 /bin/cat";
       "2000-3000 ---p 00000000 00:00 0"].

Definition with_blank_line (p : Z) : res (list string) :=
  Ret ["1000-1004 r-xp 00000000 08:01 131 /bin/cat"; ""].

Definition readv_ok (p address byte : Z) : Z * bytes :=
  (byte, replicate (Z.to_nat byte) x41).

Definition readv_fails (p address byte : Z) : Z * bytes := (-1, []).

(** The usual host: no connection, every read succeeds. *)
Definition quiet : Env :=
  host (Ret []) (fun _ => Ret "cat") layout readv_ok.

(** Every region read fails. *)
Definition unreadable : Env :=
  host (Ret []) (fun _ => Ret "cat") layout readv_fails.

(** The owner of a connection is gone when its name is looked up. *)
Definition racing : Env :=
  host (Ret [established]) (fun _ => Raise NoSuchProcess) layout readv_ok.

(** Listing the connections is refused. *)
Definition denied : Env :=
  host (Raise AccessDenied) (fun _ => Ret "cat") layout readv_ok.

Definition args (pname : option string) (p : option Z) (shot : bool)
  : InitArgs :=
  {| arg_process_name := pname; arg_process_id := p;
     arg_take_screenshot := shot; arg_include_memory := false;
     arg_include_open := true; arg_extract_dumps := false |}.

Definition cat_row : proc_row := process_row quiet cat.

End Host.

(** ** What the methods compute *)

(** The range a line of the record gives: the two fields of a line the
    pattern accepts with the flag [r]. *)
Definition readable_range (line : string) : option (Z * Z) :=
  match Maps.re_match line with
  | Some (g1, g2, flag) =>
      if Ascii.eqb flag "r" then Some (Str.int16 g1, Str.int16 g2) else None
  | None => None
  end.

(** The warnings of the two [except] clauses of [dump_processes]. *)
Definition dump_warning (cls : exn) (p_name : string) (p : Z) : event :=
  if bool_decide (cls = PermissionError) then
    Log Warning ("Permission denied opening process memory for " +:+ p_name
                 +:+ " (pid " +:+ fmt_int p
                 +:+ "). Cannot dump this process.")
  else
    Log Warning ("Error opening process memory page for " +:+ p_name
                 +:+ " (pid " +:+ fmt_int p
                 +:+ "). Dump may be incomplete.").

(** The path [acquire_volatile] stores in [self.output_path], for an
    object [s]. *)
Definition output_name (env : Env) (out : option string) (s : Self) : string :=
  if truthy_str out then default "" out
  else get_machine_name env +:+ "-" +:+ timestamp s +:+ ".zip".

(** The path of the archive [acquire_volatile] writes. *)
Definition archive_name (env : Env) (out : option string) (s : Self)
  : string :=
  if negb (Str.endswith (output_name env out s) ".zip")
  then output_name env out s +:+ ".zip"
  else output_name env out s.

(** What the copy of one listed file adds to the archive. *)
Definition copy_entries (env : Env) (file_path : string) : list entry :=
  match stat_copy env file_path with
  | Some size =>
      if size >? _MAX_OPEN_FILE_SIZE then []
      else match zip_write_file env file_path with
           | Copied content => [(strip_drive env file_path, PBytes content)]
           | _ => []
           end
  | None => []
  end.

(** The entries [acquire_volatile] adds, by the attributes of the object
    when it returns: the screenshot, the two tables, the network log, the
    copies of the open files. *)
Definition screenshot_entries (env : Env) (s : Self) : list entry :=
  if truthy_bytes (grab env)
  then [(screenshot_name env s, PBytes (default [] (grab env)))]
  else [].

Definition table_entries (s : Self) : list entry :=
  [("processes.json", PTable (map row_of_process (process_info s)));
   ("open_files.json",
    PTable (map (fun f => [("Open File", JStr f)]) (dumped_files s)))].

Definition netstat_entries (s : Self) : list entry :=
  if bool_decide (network_log s = []) then []
  else [("netstat.log", PText (Str.join crlf (network_log s)))].

Definition archive_entries (env : Env) (s : Self) : list entry :=
  screenshot_entries env s ++ table_entries s ++ netstat_entries s
  ++ flat_map (copy_entries env) (dumped_files s).

(** The object when [acquire_volatile] returns, by the processes chosen
    and the network log. *)
Definition acquired (env : Env) (out : option string) (ps : list proc_dict)
    (nlog : list string) (s : Self) : Self :=
  set_output_path (output_name env out s)
    (set_dumped_files
       (if include_open s
        then List.filter (keep_path env)
               (elements (list_to_set (candidates ps) : gset string))
        else [])
       (set_network_log nlog
          (set_process_info (map (process_row env) ps) s))).

(** A listed file whose copy raises nothing, or one of the two exceptions
    the copy loop of [acquire_volatile] has a clause for where it is
    raised. *)
Definition copy_handled (env : Env) (file_path : string) : Prop :=
  match stat_copy env file_path with
  | Some size =>
      if size >? _MAX_OPEN_FILE_SIZE then True
      else match zip_write_file env file_path with
           | CopyRaised e => e = PermissionError \/ e = FileNotFoundError
           | _ => True
           end
  | None => getsize_error env file_path = FileNotFoundError
  end.

(** The events by which the processes are asked of psutil. *)
Definition is_selection (ev : event) : bool :=
  match ev with
  | EvProcessIter | EvProcess _ => true
  | _ => false
  end.

(** The body of the [with] statement of [acquire_volatile], for the
    archive at [archive] and the object [s]. *)
Definition archive_body (env : Env) (archive : string) (s : Self) : M unit :=
  run when (truthy_bytes (grab env))
    (zip_entry archive (screenshot_name env s)
       (PBytes (default [] (grab env))));
  run for_each
    [("processes", dict_to_json (map row_of_process (process_info s)));
     ("open_files",
      dict_to_json (map (fun f => [("Open File", JStr f)])
                      (dumped_files s)))]
    (fun kv => zip_entry archive (fst kv +:+ ".json") (snd kv));
  run when (negb (bool_decide (network_log s = [])))
    (run emit (Log Info "Adding Netstat Data");
     zip_entry archive "netstat.log"
       (PText (Str.join crlf (network_log s))));
  when truthy_method
    (for_each (dumped_files s) (copy_open_file env archive)).

(** What [acquire_volatile] has asked of the host when it opens the
    archive, after the events [t] of [get_network]. *)
Definition events_before_archive (env : Env) (s : Self) (t : list event)
  : list event :=
  selector_event (process_id s) :: t
  ++ (if include_open s then [selector_event (process_id s)] else [])
  ++ EvGrab :: match grab env with
               | Some _ => []
               | None => [Log Error "Unable to take screenshot"]
               end.

(** A step that, when it returns, has left the object as it is, added the
    entries [new] to the archive at [path] and asked psutil for no
    process. *)
Definition writes (path : string) (new : list entry) (m : M unit) : Prop :=
  forall w old w',
    disk w !! path = Some old ->
    m w = (Ret tt, w') ->
    exists t,
      w' = {| self := self w;
              disk := <[path := old ++ new]> (disk w);
              trace := trace w ++ t |}
      /\ List.filter is_selection t = [].

(** A step that returns. *)
Definition returns (m : M unit) : Prop := forall w, fst (m w) = Ret tt.

(** A connection with both its addresses. *)
Definition established (conn : sconn) : bool :=
  bool_decide (is_Some (laddr conn)) && bool_decide (is_Some (raddr conn)).

(** A method under which every archive keeps the entries it has. *)
Definition grows {A} (m : M A) : Prop :=
  forall w path,
    default [] (disk w !! path) `prefix_of` default [] (disk (snd (m w)) !! path).

(** ** More example hosts *)

Module Lab.

(** The host [env] with a scratch file that fails as [f] says. *)
Definition with_tmpfile_write (f : bytes -> bytes -> res unit) (env : Env)
  : Env :=
  {| gethostname := gethostname env;
     remove_special_characters := remove_special_characters env;
     strip_drive := strip_drive env;
     now_str := now_str env;
     timestamp_str := timestamp_str env;
     time_str := time_str env;
     strftime_utc := strftime_utc env;
     process_iter := process_iter env;
     Process := Process env;
     Process_name := Process_name env;
     net_connections := net_connections env;
     stat_listing := stat_listing env;
     stat_copy := stat_copy env;
     getsize_error := getsize_error env;
     zip_write_file := zip_write_file env;
     grab := grab env;
     proc_maps := proc_maps env;
     process_vm_readv := process_vm_readv env;
     tmpfile_write := f;
     zip_write_tmp := zip_write_tmp env |}.

(** The scratch file is on a disk that is full. *)
Definition disk_full : Env :=
  with_tmpfile_write (fun _ _ => Raise OSError) Host.quiet.

(** The host [env] where adding a file to the archive ends as [f] says. *)
Definition with_zip_write_file (f : string -> copy_outcome) (env : Env)
  : Env :=
  {| gethostname := gethostname env;
     remove_special_characters := remove_special_characters env;
     strip_drive := strip_drive env;
     now_str := now_str env;
     timestamp_str := timestamp_str env;
     time_str := time_str env;
     strftime_utc := strftime_utc env;
     process_iter := process_iter env;
     Process := Process env;
     Process_name := Process_name env;
     net_connections := net_connections env;
     stat_listing := stat_listing env;
     stat_copy := stat_copy env;
     getsize_error := getsize_error env;
     zip_write_file := f;
     grab := grab env;
     proc_maps := proc_maps env;
     process_vm_readv := process_vm_readv env;
     tmpfile_write := tmpfile_write env;
     zip_write_tmp := zip_write_tmp env |}.

(** Reading an open file to copy it fails with an input/output error. *)
Definition bad_sector : Env :=
  with_zip_write_file (fun _ => CopyRaised OSError) Host.quiet.

End Lab.

(** * Properties *)

(** ** The pattern of a layout line *)

Module MapsFacts.
Import Maps.

Lemma span_split p s a b :
  Str.span p s = (a, b) -> s = a +:+ b /\ Str.all p a = true.
Proof.
  revert a b. induction s as [|c s IH]; intros a b; simpl.
  - intros [= <- <-]. done.
  - destruct (p c) eqn:Hc.
    + destruct (Str.span p s) as [a' b'] eqn:Hs. intros [= <- <-].
      destruct (IH _ _ eq_refl) as [-> Ha]. simpl. by rewrite Hc, Ha.
    + intros [= <- <-]. done.
Qed.

Lemma span_stop p a c r :
  Str.all p a = true -> p c = false ->
  Str.span p (a +:+ String c r) = (a, String c r).
Proof.
  intros Ha Hc. induction a as [|x a IH]; simpl in *.
  - by rewrite Hc.
  - apply andb_prop in Ha as [Hx Ha]. by rewrite Hx, (IH Ha).
Qed.

Lemma space_not_hex c : Str.is_space c = true -> Str.is_hex c = false.
Proof.
  destruct c as [[] [] [] [] [] [] [] []]; vm_compute; congruence.
Qed.

Lemma is_empty_true s : Str.is_empty s = true <-> s = "".
Proof. destruct s; simpl; split; congruence. Qed.

(** [re_match] computes the match of the pattern. *)
Lemma re_match_iff line g1 g2 flag :
  re_match line = Some (g1, g2, flag) <-> matches line g1 g2 flag.
Proof.
  unfold re_match, matches. split.
  - destruct (Str.span Str.is_hex line) as [a r1] eqn:H1.
    apply span_split in H1 as [-> Ha].
    destruct (Str.is_empty a) eqn:Ea; [done|].
    destruct r1 as [|c r2]; [done|].
    destruct (Ascii.eqb_spec c "-"); [subst c|].
    2:{ destruct c as [[] [] [] [] [] [] [] []]; done. }
    destruct (Str.span Str.is_hex r2) as [b r3] eqn:H2.
    apply span_split in H2 as [-> Hb].
    destruct (Str.is_empty b) eqn:Eb; [done|].
    destruct r3 as [|ws [|f rest]]; [done|done|].
    destruct (Str.is_space ws) eqn:Hws; [|done]. simpl.
    destruct (Ascii.eqb_spec f "r"); simpl.
    + intros [= <- <- <-]. exists ws, rest. repeat split; auto.
      * intros ->. done.
      * intros ->. done.
    + destruct (Ascii.eqb_spec f "-"); [|done].
      intros [= <- <- <-]. exists ws, rest. repeat split; auto.
      * intros ->. done.
      * intros ->. done.
  - intros (ws & rest & -> & N1 & A1 & N2 & A2 & Hws & Hf).
    rewrite (span_stop Str.is_hex g1 "-"%char _ A1 eq_refl).
    destruct (Str.is_empty g1) eqn:E1; [by apply is_empty_true in E1|].
    rewrite (span_stop _ _ _ _ A2 (space_not_hex _ Hws)).
    destruct (Str.is_empty g2) eqn:E2; [by apply is_empty_true in E2|].
    rewrite Hws. destruct Hf as [-> | ->]; reflexivity.
Qed.

(** A range of the list comes from the accumulator or from a readable
    line. *)
Lemma parse_lines_from lines : forall acc L,
  parse_lines acc lines = Ret L ->
  forall r, r ∈ L ->
    r ∈ acc \/
    exists line g1 g2,
      line ∈ lines /\ re_match line = Some (g1, g2, "r"%char)
      /\ r = (Str.int16 g1, Str.int16 g2).
Proof.
  induction lines as [|line lines IH]; intros acc L; simpl.
  - intros [= <-] r Hr. by left.
  - unfold parse_line.
    destruct (re_match line) as [[[g1 g2] flag]|] eqn:Hm; [|done].
    destruct (Ascii.eqb_spec flag "r") as [->|Hf]; intros HL r Hr.
    + destruct (IH _ _ HL r Hr) as [Hacc | (l & a & b & Hl & Hlm & ->)].
      * apply elem_of_app in Hacc as [Hacc | Hnew]; [by left|].
        apply list_elem_of_singleton in Hnew as ->.
        right. exists line, g1, g2. split; [left|done].
      * right. exists l, a, b. split; [by right|done].
    + destruct (IH _ _ HL r Hr) as [Hacc | (l & a & b & Hl & Hlm & ->)].
      * by left.
      * right. exists l, a, b. split; [by right|done].
Qed.

(** One line the pattern refuses makes the whole loop raise. *)
Lemma parse_lines_unmatched lines : forall acc line,
  line ∈ lines -> re_match line = None ->
  parse_lines acc lines = Raise AttributeError.
Proof.
  induction lines as [|l lines IH]; intros acc line Hin Hno; simpl.
  - by apply elem_of_nil in Hin.
  - unfold parse_line.
    destruct (re_match l) as [[[g1 g2] flag]|] eqn:Hm; [|done].
    apply elem_of_cons in Hin as [-> | Hin]; [congruence|].
    destruct (Ascii.eqb flag "r"); eauto.
Qed.

End MapsFacts.

(** ** The memory map parser *)



(** C4.  A line the pattern refuses is not skipped: whatever the other
    lines are, [parse_mem_map] raises [AttributeError], which none of its
    [except] clauses accepts. *)
Theorem parse_mem_map_unmatched_line (env : Env) (p : Z) (p_name : string)
    (w : World) (lines : list string) (line : string) :
  proc_maps env p = Ret lines ->
  line ∈ lines ->
  Maps.re_match line = None ->
  fst (parse_mem_map env p p_name w) = Raise AttributeError.
Proof.
  intros Hmaps Hin Hno.
  unfold parse_mem_map, try_excepts, bind, emit, lift. simpl.
  rewrite Hmaps.
  by rewrite (MapsFacts.parse_lines_unmatched _ [] _ Hin Hno).
Qed.

Lemma parse_mem_map_unmatched_line_witness :
  let env := Host.host (Ret []) (fun _ => Ret "cat") Host.with_blank_line
               Host.readv_ok in
  proc_maps env 7
    = Ret ["1000-1004 r-xp 00000000 08:01 131 /bin/cat"; ""]
  /\ "" ∈ ["1000-1004 r-xp 00000000 08:01 131 /bin/cat"; ""]
  /\ Maps.re_match "" = None
  /\ fst (parse_mem_map env 7 "cat" initial_world) = Raise AttributeError.
Proof.
  assert (Hin : "" ∈ ["1000-1004 r-xp 00000000 08:01 131 /bin/cat"; ""]).
  { right. left. }
  split; [reflexivity|]. split; [exact Hin|]. split; [reflexivity|].
  exact (parse_mem_map_unmatched_line
           (Host.host (Ret []) (fun _ => Ret "cat") Host.with_blank_line
              Host.readv_ok)
           7 "cat" initial_world _ "" eq_refl Hin eq_refl).
Defined.

(** ** The region reader and the dump of one process *)

Section DumpFacts.

Variable env : Env.

Lemma read_bytes_disk p a n w :
  disk (snd (read_bytes env p a n w)) = disk w.
Proof.
  unfold read_bytes. destruct (n <? 0); [done|].
  unfold bind, emit, ret. simpl.
  destruct (process_vm_readv env p a n) as [rv data].
  by destruct (rv =? -1).
Qed.

Lemma read_regions_disk p maps : forall sink w,
  disk (snd (read_regions env p maps sink w)) = disk w.
Proof.
  induction maps as [|m maps IH]; intros sink w; simpl; [done|].
  unfold bind at 1.
  pose proof (read_bytes_disk p (fst m) (snd m - fst m) w) as Hd.
  destruct (read_bytes env p (fst m) (snd m - fst m) w) as [[c|ex] w1];
    simpl in *; [|done].
  destruct (truthy_bytes c).
  - unfold bind, lift.
    destruct (tmpfile_write env sink (default [] c)); simpl; [|done].
    by rewrite IH.
  - by rewrite IH.
Qed.

Lemma parse_mem_map_disk p p_name w :
  disk (snd (parse_mem_map env p p_name w)) = disk w.
Proof.
  unfold parse_mem_map, try_excepts, bind, emit, lift, ret. simpl.
  destruct (proc_maps env p) as [lines|ex]; simpl.
  - destruct (Maps.parse_lines [] lines) as [L|ex]; simpl; [done|].
    by repeat case_bool_decide.
  - by repeat case_bool_decide.
Qed.

(** A read that fails leaves the scratch file as it is and goes on. *)
Lemma read_regions_all_fail p maps : forall sink w,
  (forall m, m ∈ maps ->
     fst m <= snd m
     /\ fst (process_vm_readv env p (fst m) (snd m - fst m)) = -1) ->
  read_regions env p maps sink w
  = (Ret sink,
     add_trace (map (fun m => EvVmReadv p (fst m) (snd m - fst m)) maps) w).
Proof.
  induction maps as [|m maps IH]; intros sink w Hall; simpl.
  - unfold ret, add_trace. destruct w; simpl. by rewrite app_nil_r.
  - destruct (Hall m) as [Hle Hrv]; [left|].
    unfold bind at 1. unfold read_bytes.
    destruct (Z.ltb_spec (snd m - fst m) 0) as [?|_]; [lia|].
    unfold bind, emit, ret. simpl.
    destruct (process_vm_readv env p (fst m) (snd m - fst m)) as [rv data].
    simpl in Hrv. subst rv. simpl.
    rewrite IH by (intros m' Hm'; apply Hall; by right).
    unfold add_trace. simpl. by rewrite <- app_assoc.
Qed.

(** With a scratch file that takes every write, every region of a map
    with no reversed range is attempted, whichever reads fail. *)
Lemma read_regions_attempts_all p maps : forall sink w,
  (forall m, m ∈ maps -> fst m <= snd m) ->
  (forall a b, tmpfile_write env a b = Ret tt) ->
  exists sink',
    read_regions env p maps sink w
    = (Ret sink',
       add_trace (map (fun m => EvVmReadv p (fst m) (snd m - fst m)) maps) w).
Proof.
  induction maps as [|m maps IH]; intros sink w Hall Hw; simpl.
  - exists sink. unfold ret, add_trace. destruct w; simpl.
    by rewrite app_nil_r.
  - assert (Hle : fst m <= snd m) by (apply Hall; left).
    unfold bind at 1. unfold read_bytes.
    destruct (Z.ltb_spec (snd m - fst m) 0) as [?|_]; [lia|].
    unfold bind at 1. unfold emit at 1. simpl.
    destruct (process_vm_readv env p (fst m) (snd m - fst m)) as [rv data].
    set (w1 := {| self := self w; disk := disk w;
                  trace := trace w ++ [EvVmReadv p m.1 (m.2 - m.1)] |}).
    assert (Hstep : forall s,
      exists sink', read_regions env p maps s w1
        = (Ret sink',
           add_trace (map (fun m => EvVmReadv p (fst m) (snd m - fst m))
                       (m :: maps)) w)).
    { intros s.
      destruct (IH s w1) as [s' Hs']; [intros; apply Hall; by right|done|].
      exists s'. rewrite Hs'. unfold add_trace, w1. simpl.
      by rewrite <- app_assoc. }
    destruct (rv =? -1); unfold ret; simpl; [apply Hstep|].
    destruct (buff_raw (m.2 - m.1) data) eqn:Hb; [apply Hstep|].
    unfold bind, lift. rewrite Hw. apply Hstep.
Qed.

End DumpFacts.



(** C2, as amended.  For a process whose memory map gives a non-empty list
    of regions, the entry [process_dumps/<name>_<pid>.mem] is committed
    exactly when the loop over the regions and the write into the archive
    raise nothing, and it holds what the scratch file holds, whether or not
    a read produced a byte; when every read fails, the scratch file is
    empty and an empty entry is committed. *)
Theorem dump_process_commit (env : Env) (archive_out : string)
    (proc : proc_row) (w w1 : World) (maps : list (Z * Z)) :
  let p := Process_ID proc in
  let nm := dump_name (Name proc) p in
  let committed (sink : bytes) :=
    <[archive_out := default [] (disk w !! archive_out)
                     ++ [(nm, PBytes sink)]]> (disk w) in
  parse_mem_map env p (Name proc) w = (Ret maps, w1) ->
  maps <> [] ->
  disk (snd (dump_process env archive_out proc w))
  = match read_regions env p maps [] w1 with
    | (Ret sink, _) =>
        match zip_write_tmp env nm sink with
        | Ret _ => committed sink
        | Raise _ => disk w
        end
    | (Raise _, _) => disk w
    end
  /\ ((forall m, m ∈ maps ->
         fst m <= snd m
         /\ fst (process_vm_readv env p (fst m) (snd m - fst m)) = -1) ->
      zip_write_tmp env nm [] = Ret tt ->
      disk (snd (dump_process env archive_out proc w)) = committed []).
Proof.
  intros p nm committed Hparse Hne.
  pose proof (parse_mem_map_disk env p (Name proc) w) as Hd1.
  rewrite Hparse in Hd1. simpl in Hd1.
  pose proof (read_regions_disk env p maps [] w1) as Hd2.
  assert (Hmain :
    disk (snd (dump_process env archive_out proc w))
    = match read_regions env p maps [] w1 with
      | (Ret sink, _) =>
          match zip_write_tmp env nm sink with
          | Ret _ => committed sink
          | Raise _ => disk w
          end
      | (Raise _, _) => disk w
      end).
  { unfold dump_process. fold p. fold nm. unfold bind at 1. rewrite Hparse.
    rewrite bool_decide_eq_false_2 by done.
    unfold try_excepts, bind, lift, zip_entry, emit.
    destruct (read_regions env p maps [] w1) as [[sink|ex] w2];
      simpl in *.
    - destruct (zip_write_tmp env nm sink) as [[]|ex]; simpl.
      + unfold committed. by rewrite Hd2, Hd1.
      + destruct ex; simpl; congruence.
    - destruct ex; simpl; congruence. }
  split; [exact Hmain|].
  intros Hall Hzip. rewrite Hmain.
  rewrite (read_regions_all_fail env p maps [] w1 Hall). by rewrite Hzip.
Qed.

Lemma dump_process_commit_witness :
  let w1 := add_trace [EvProcMaps 7] initial_world in
  parse_mem_map Host.unreadable 7 "cat" initial_world
  = (Ret [(4096, 4100)], w1)
  /\ [(4096, 4100)] <> []
  /\ (forall m, m ∈ [(4096, 4100)] ->
        fst m <= snd m
        /\ fst (process_vm_readv Host.unreadable 7 (fst m) (snd m - fst m))
           = -1)
  /\ zip_write_tmp Host.unreadable "process_dumps/cat_7.mem" [] = Ret tt
  /\ disk (snd (dump_process Host.unreadable "out.zip" Host.cat_row
                  initial_world))
     = <["out.zip" := [("process_dumps/cat_7.mem", PBytes [])]]> ∅.
Proof.
  assert (Hall : forall m, m ∈ [(4096, 4100)] ->
            fst m <= snd m
            /\ fst (process_vm_readv Host.unreadable 7 (fst m) (snd m - fst m))
               = -1).
  { intros m Hm. apply list_elem_of_singleton in Hm as ->.
    split; [simpl; lia | reflexivity]. }
  split; [reflexivity|]. split; [discriminate|]. split; [exact Hall|].
  split; [reflexivity|].
  exact (proj2 (dump_process_commit Host.unreadable "out.zip" Host.cat_row
                  initial_world (add_trace [EvProcMaps 7] initial_world)
                  [(4096, 4100)] eq_refl ltac:(discriminate))
           Hall eq_refl).
Defined.

(** C2, as stated, fails: the only region read of the process fails, no
    byte is produced, and the entry of the process is in the archive. *)
Lemma dump_process_empty_entry :
  let w' := snd (dump_process Host.unreadable "out.zip" Host.cat_row
                   initial_world) in
  fst (parse_mem_map Host.unreadable 7 "cat" initial_world)
  = Ret [(4096, 4100)]
  /\ fst (read_bytes Host.unreadable 7 4096 4 initial_world) = Ret None
  /\ disk w' !! "out.zip" = Some [("process_dumps/cat_7.mem", PBytes [])].
Proof. vm_compute. done. Qed.

(** ** The trace only grows *)

Section Extends.

Lemma extends_ret {A} (a : A) : extends (ret a).
Proof. intros w. exists []. simpl. by rewrite app_nil_r. Qed.

Lemma extends_raise {A} e : extends (@raise A e).
Proof. intros w. exists []. simpl. by rewrite app_nil_r. Qed.

Lemma extends_lift {A} (r : res A) : extends (lift r).
Proof. intros w. exists []. simpl. by rewrite app_nil_r. Qed.

Lemma extends_get_self : extends get_self.
Proof. intros w. exists []. simpl. by rewrite app_nil_r. Qed.

Lemma extends_set_self f : extends (set_self f).
Proof. intros w. exists []. simpl. by rewrite app_nil_r. Qed.

Lemma extends_emit e : extends (emit e).
Proof. intros w. by exists [e]. Qed.

Lemma extends_zip_entry path ename p : extends (zip_entry path ename p).
Proof. intros w. by exists [EvZipEntry path ename]. Qed.

Lemma extends_bind {A B} (m : M A) (k : A -> M B) :
  extends m -> (forall a, extends (k a)) -> extends (bind m k).
Proof.
  intros Hm Hk w. unfold bind. destruct (Hm w) as [t Ht].
  destruct (m w) as [[a|e] w1]; simpl in *.
  - destruct (Hk a w1) as [t' Ht']. exists (t ++ t').
    by rewrite Ht', Ht, app_assoc.
  - by exists t.
Qed.

Lemma extends_try_except {A} (m : M A) cls (h : M A) :
  extends m -> extends h -> extends (try_except m cls h).
Proof.
  intros Hm Hh w. unfold try_except. destruct (Hm w) as [t Ht].
  destruct (m w) as [[a|e] w1]; simpl in *; [by exists t|].
  destruct (subclass e cls); [|by exists t].
  destruct (Hh w1) as [t' Ht']. exists (t ++ t').
  by rewrite Ht', Ht, app_assoc.
Qed.

Lemma extends_when b (m : M unit) : extends m -> extends (when b m).
Proof. destruct b; [done|]. intros _. apply extends_ret. Qed.

Lemma extends_for_each {A} (l : list A) (body : A -> M unit) :
  (forall x, extends (body x)) -> extends (for_each l body).
Proof.
  intros Hb. induction l as [|x l IH]; simpl.
  - apply extends_ret.
  - apply extends_bind; [apply Hb | intros _; apply IH].
Qed.

Lemma extends_with_zip {A} path (body : M A) :
  extends body -> extends (with_zip path body).
Proof.
  intros Hb w. unfold with_zip.
  set (w1 := {| self := self w; disk := _; trace := _ |}).
  destruct (Hb w1) as [t Ht]. destruct (body w1) as [r w2]. simpl in *.
  exists ([EvZipOpen path] ++ t ++ [EvZipClose path]).
  rewrite Ht. unfold w1. simpl. by rewrite <- !app_assoc.
Qed.

End Extends.

Create HintDb extends.

#[local] Hint Resolve extends_ret extends_raise extends_lift extends_get_self
  extends_set_self extends_emit extends_zip_entry extends_bind
  extends_try_except extends_when extends_for_each extends_with_zip
  : extends.

Ltac extends_tac :=
  repeat first
    [ progress intros
    | match goal with
      | |- extends (if ?b then _ else _) => destruct b
      | |- extends (match ?x with _ => _ end) => destruct x
      end
    | solve [eauto with extends]
    | apply extends_bind
    | apply extends_try_except
    | apply extends_when
    | apply extends_for_each
    | apply extends_with_zip ].

Section BaseFacts.

Variable env : Env.

Lemma bind_step {A B} (m : M A) (k : A -> M B) w a w1 :
  m w = (Ret a, w1) -> bind m k w = k a w1.
Proof. intros H. unfold bind. by rewrite H. Qed.

Lemma bind_raise {A B} (m : M A) (k : A -> M B) w e w1 :
  m w = (Raise e, w1) -> bind m k w = (Raise e, w1).
Proof. intros H. unfold bind. by rewrite H. Qed.

Lemma get_processes_dict_eq w :
  get_processes_dict env w
  = (process_choice env (process_name (self w)) (process_id (self w)),
     add_trace [selector_event (process_id (self w))] w).
Proof.
  unfold get_processes_dict, process_choice, selector_event.
  unfold bind, get_self, emit, lift, ret, add_trace. simpl.
  destruct (truthy_int (process_id (self w))); simpl.
  - by destruct (Process env _).
  - by destruct (truthy_str (process_name (self w))).
Qed.

Lemma get_processes_eq w :
  get_processes env w
  = (match process_choice env (process_name (self w))
             (process_id (self w)) with
     | Ret ps => Ret (map (process_row env) ps)
     | Raise e => Raise e
     end,
     add_trace [selector_event (process_id (self w))] w).
Proof.
  unfold get_processes, bind. rewrite get_processes_dict_eq.
  by destruct (process_choice _ _ _).
Qed.

Lemma extends_network_lines conns : forall network,
  extends (network_lines env conns network).
Proof.
  induction conns as [|c conns IH]; intros network; simpl; extends_tac.
Qed.

Lemma extends_get_network : extends (get_network env).
Proof.
  unfold get_network. extends_tac. apply extends_network_lines.
Qed.

Lemma extends_get_processes_dict : extends (get_processes_dict env).
Proof. unfold get_processes_dict. extends_tac. Qed.

Lemma extends_dump_loaded_files : extends (dump_loaded_files env).
Proof.
  unfold dump_loaded_files. apply extends_bind.
  - apply extends_get_processes_dict.
  - intros ps. destruct (collect_paths ps [] [] []) as [[a b] c].
    apply extends_ret.
Qed.

Lemma extends_take_screenshot : extends (take_screenshot env).
Proof. unfold take_screenshot. extends_tac. Qed.

Lemma extends_copy_open_file archive_out f :
  extends (copy_open_file env archive_out f).
Proof. unfold copy_open_file. extends_tac. Qed.

Lemma extends_acquire_volatile out : extends (acquire_volatile env out).
Proof.
  unfold acquire_volatile, get_processes.
  pose proof extends_get_processes_dict.
  pose proof extends_get_network.
  pose proof extends_dump_loaded_files.
  pose proof extends_take_screenshot.
  pose proof extends_copy_open_file.
  extends_tac.
Qed.

Lemma extends_acquisition : extends (acquisition env).
Proof.
  unfold acquisition. pose proof extends_acquire_volatile. extends_tac.
Qed.

(** The constructor up to its check of the selectors. *)
Lemma BaseSystem_init_eq a w :
  BaseSystem_init env a w
  = if truthy_str (arg_process_name a) && truthy_int (arg_process_id a)
    then (Raise ValueError, configured env a w)
    else acquisition env (configured env a w).
Proof.
  unfold BaseSystem_init, bind, set_self, emit, get_self. simpl.
  fold (banner env). fold (configured env a w).
  by destruct (truthy_str (arg_process_name a)
               && truthy_int (arg_process_id a)).
Qed.

(** When the check passes, the processes are enumerated next. *)
Lemma acquisition_starts w :
  exists t,
    trace (snd (acquisition env w))
    = trace w ++ selector_event (process_id (self w)) :: t.
Proof.
  unfold acquisition, acquire_volatile.
  set (k := fun pinfo : list proc_row => _).
  set (k2 := fun zp : string => _).
  unfold bind at 1. unfold bind at 1. rewrite get_processes_eq.
  destruct (process_choice env _ _) as [ps|e]; simpl.
  - assert (Hk : extends (k (map (process_row env) ps))).
    { unfold k.
      pose proof extends_get_network.
      pose proof extends_dump_loaded_files.
      pose proof extends_take_screenshot.
      pose proof extends_copy_open_file.
      extends_tac. }
    destruct (Hk (add_trace [selector_event (process_id (self w))] w))
      as [t Ht].
    destruct (k _ _) as [[zp|e] w1]; simpl in *.
    + exists t. rewrite Ht. by rewrite <- app_assoc.
    + exists t. rewrite Ht. by rewrite <- app_assoc.
  - by exists [].
Qed.

End BaseFacts.

(** ** The constructor and its selectors *)

(** C8, as amended.  When [process_name] is a non-empty string and
    [process_id] is a non-zero number, [__init__] raises [ValueError] with
    nothing but its first log line behind it: no collector has run and the
    disk is as it was.  When one of the two is not given, the check passes
    and the processes are enumerated next. *)
Theorem init_selectors_check (env : Env) (a : InitArgs) (w : World) :
  (forall n p,
     arg_process_name a = Some n -> arg_process_id a = Some p ->
     n <> "" -> p <> 0 ->
     exists w',
       BaseSystem_init env a w = (Raise ValueError, w')
       /\ disk w' = disk w
       /\ trace w' = trace w ++ [banner env])
  /\ (arg_process_name a = None \/ arg_process_id a = None ->
      BaseSystem_init env a w = acquisition env (configured env a w)
      /\ exists t,
           trace (snd (BaseSystem_init env a w))
           = trace w ++ banner env :: selector_event (arg_process_id a) :: t).
Proof.
  split.
  - intros n p Hn Hp Hne Hnz. exists (configured env a w).
    rewrite BaseSystem_init_eq, Hn, Hp. simpl.
    destruct n; [done|]. simpl.
    destruct (Z.eqb_spec p 0); [done|]. done.
  - intros Hnone.
    assert (Hpass : truthy_str (arg_process_name a)
                    && truthy_int (arg_process_id a) = false).
    { destruct Hnone as [-> | ->]; [done|]. apply andb_false_r. }
    rewrite BaseSystem_init_eq, Hpass. split; [done|].
    destruct (acquisition_starts env (configured env a w)) as [t Ht].
    exists t. rewrite Ht. simpl. by rewrite <- app_assoc.
Qed.

Lemma init_selectors_check_witness :
  (exists w',
     BaseSystem_init Host.quiet (Host.args (Some "cat") (Some 7) true)
       initial_world = (Raise ValueError, w')
     /\ disk w' = ∅
     /\ trace w' = [banner Host.quiet])
  /\ exists t,
       trace (snd (BaseSystem_init Host.quiet (Host.args (Some "cat") None true)
                     initial_world))
       = banner Host.quiet :: EvProcessIter :: t.
Proof.
  split.
  - apply (proj1 (init_selectors_check Host.quiet
                    (Host.args (Some "cat") (Some 7) true) initial_world)
             "cat" 7 eq_refl eq_refl); [discriminate | lia].
  - apply (proj2 (init_selectors_check Host.quiet
                    (Host.args (Some "cat") None true) initial_world)).
    right. reflexivity.
Defined.

(** C8, as stated, fails: a name and the process identifier 0 are both
    given, and the constructor returns with the archive written. *)
Lemma init_name_and_pid_zero :
  let a := Host.args (Some "cat") (Some 0) true in
  let w' := snd (BaseSystem_init Host.quiet a initial_world) in
  arg_process_name a = Some "cat"
  /\ arg_process_id a = Some 0
  /\ fst (BaseSystem_init Host.quiet a initial_world) = Ret tt
  /\ take 3 (entry_names (disk w') "lab-1704067200.5.zip")
     = ["lab-1704067200.5.png"; "processes.json"; "open_files.json"].
Proof. vm_compute. done. Qed.

(** C10.  A [process_id] of 0 is a selector that is not there, and so is an
    empty [process_name]: the processes chosen are those chosen without
    it, all of them when the other selector is not given either; and a
    name given with the identifier 0 passes the check of [__init__], which
    goes on to enumerate the processes. *)
Theorem falsy_selectors_ignored (env : Env) (w : World)
    (n : option string) (p : option Z) (shot mem opn ext : bool) :
  let choice n p := fst (get_processes_dict env (with_selectors n p w)) in
  let a := {| arg_process_name := n; arg_process_id := Some 0;
              arg_take_screenshot := shot; arg_include_memory := mem;
              arg_include_open := opn; arg_extract_dumps := ext |} in
  choice n (Some 0) = choice n None
  /\ choice (Some "") p = choice None p
  /\ choice None (Some 0) = Ret (process_iter env)
  /\ choice (Some "") None = Ret (process_iter env)
  /\ choice (Some "") (Some 0) = Ret (process_iter env)
  /\ BaseSystem_init env a w = acquisition env (configured env a w)
  /\ exists t,
       trace (snd (BaseSystem_init env a w))
       = trace w ++ banner env :: EvProcessIter :: t.
Proof.
  intros choice a. unfold choice.
  rewrite !get_processes_dict_eq. simpl.
  repeat split; try reflexivity.
  - rewrite BaseSystem_init_eq. simpl. by rewrite andb_false_r.
  - rewrite BaseSystem_init_eq. simpl. rewrite andb_false_r.
    destruct (acquisition_starts env (configured env a w)) as [t Ht].
    exists t. rewrite Ht. simpl. by rewrite <- app_assoc.
Qed.

(** ** The screenshot *)

(** The constructor does not look at [take_screenshot]. *)
Lemma init_ignores_take_screenshot (env : Env) (n : option string)
    (p : option Z) (shot mem opn ext : bool) (w : World) :
  BaseSystem_init env
    {| arg_process_name := n; arg_process_id := p;
       arg_take_screenshot := shot; arg_include_memory := mem;
       arg_include_open := opn; arg_extract_dumps := ext |} w
  = BaseSystem_init env
      {| arg_process_name := n; arg_process_id := p;
         arg_take_screenshot := negb shot; arg_include_memory := mem;
         arg_include_open := opn; arg_extract_dumps := ext |} w.
Proof. by rewrite !BaseSystem_init_eq. Qed.

(** C5.  The flag [take_screenshot] is not stored by [__init__], and the
    condition [self.take_screenshot] of [acquire_volatile] is the method of
    that name: with the flag off, the screen is grabbed and the image is
    the first entry of the archive. *)
Theorem screenshot_taken_with_flag_off :
  let a := Host.args None None false in
  let w' := snd (BaseSystem_init Host.quiet a initial_world) in
  arg_take_screenshot a = false
  /\ fst (BaseSystem_init Host.quiet a initial_world) = Ret tt
  /\ take 5 (trace w')
     = [banner Host.quiet; EvProcessIter; EvNetConnections; EvProcessIter;
        EvGrab]
  /\ head (default [] (disk w' !! "lab-1704067200.5.zip"))
     = Some ("lab-1704067200.5.png", PBytes [x89; x50; x4e; x47]).
Proof. vm_compute. done. Qed.

(** ** The network snapshot *)

Section NetworkFacts.

Variable env : Env.

Lemma get_network_disk w : disk (snd (get_network env w)) = disk w.
Proof.
  unfold get_network, bind, try_except, emit, lift, ret. simpl.
  assert (Hl : forall conns network w0,
            disk (snd (network_lines env conns network w0)) = disk w0).
  { induction conns as [|c conns IH]; intros network w0; simpl; [done|].
    destruct (laddr c), (raddr c); try apply IH.
    unfold bind, emit, lift. simpl.
    destruct (Process_name env (conn_pid c)); simpl; [|done].
    by rewrite IH. }
  destruct (net_connections env) as [conns|e]; simpl.
  - by rewrite Hl.
  - case_bool_decide; simpl; done.
Qed.

Lemma get_network_denied w :
  net_connections env = Raise AccessDenied ->
  get_network env w
  = (Ret [],
     add_trace
       [EvNetConnections;
        Log Error "Access denied attempting to get network connections"] w).
Proof.
  intros H. unfold get_network, bind, try_except, emit, lift, ret.
  rewrite H. simpl. unfold add_trace. by rewrite <- app_assoc.
Qed.

End NetworkFacts.

(** C7.  A failure of one process is not kept inside the collector that
    meets it: when the owner of an established connection cannot be named,
    the exception of the lookup leaves [get_network] and
    [acquire_volatile], and no archive is opened: the disk is as it was. *)
Theorem name_lookup_failure_aborts (env : Env) (out : option string)
    (w : World) (ps : list proc_dict) (conn : sconn) (conns : list sconn)
    (l r : addr) (e : exn) :
  fst (get_processes_dict env w) = Ret ps ->
  net_connections env = Ret (conn :: conns) ->
  laddr conn = Some l -> raddr conn = Some r ->
  Process_name env (conn_pid conn) = Raise e ->
  fst (acquire_volatile env out w) = Raise e
  /\ disk (snd (acquire_volatile env out w)) = disk w.
Proof.
  intros Hps Hconns Hl Hr He.
  rewrite get_processes_dict_eq in Hps. simpl in Hps.
  set (w0 := add_trace [selector_event (process_id (self w))] w).
  set (w1 := {| self := set_process_info (map (process_row env) ps) (self w0);
                disk := disk w0; trace := trace w0 |}).
  assert (Hnet : get_network env w1
                 = (Raise e,
                    add_trace [EvNetConnections; EvProcessName (conn_pid conn)]
                      w1)).
  { unfold get_network, bind, try_except, emit, lift. rewrite Hconns.
    simpl. rewrite Hl, Hr. unfold bind, emit, lift. rewrite He. simpl.
    unfold add_trace. simpl. by rewrite <- app_assoc. }
  assert (Hrun : acquire_volatile env out w
                 = (Raise e,
                    add_trace [EvNetConnections; EvProcessName (conn_pid conn)]
                      w1)).
  { unfold acquire_volatile.
    erewrite bind_step by (rewrite get_processes_eq, Hps; reflexivity).
    erewrite bind_step by reflexivity.
    erewrite bind_raise by exact Hnet. reflexivity. }
  rewrite Hrun. done.
Qed.

Lemma name_lookup_failure_aborts_witness :
  fst (get_processes_dict Host.racing initial_world) = Ret [Host.cat]
  /\ net_connections Host.racing = Ret [Host.established]
  /\ Process_name Host.racing (conn_pid Host.established)
     = Raise NoSuchProcess
  /\ fst (acquire_volatile Host.racing None initial_world)
     = Raise NoSuchProcess
  /\ disk (snd (acquire_volatile Host.racing None initial_world)) = ∅.
Proof.
  split; [reflexivity|]. split; [reflexivity|]. split; [reflexivity|].
  exact (name_lookup_failure_aborts Host.racing None initial_world
           [Host.cat] Host.established [] _ _ NoSuchProcess
           eq_refl eq_refl eq_refl eq_refl eq_refl).
Defined.

(** ** The open files *)

Section FilesFacts.

Variable env : Env.

Lemma dump_loaded_files_eq w :
  dump_loaded_files env w
  = (match process_choice env (process_name (self w))
             (process_id (self w)) with
     | Ret ps =>
         Ret (List.filter (keep_path env)
                (elements (list_to_set (candidates ps) : gset string)))
     | Raise e => Raise e
     end,
     add_trace [selector_event (process_id (self w))] w).
Proof.
  unfold dump_loaded_files, bind. rewrite get_processes_dict_eq.
  destruct (process_choice _ _ _) as [ps|e]; [|done].
  unfold candidates. by destruct (collect_paths ps [] [] []) as [[a b] c].
Qed.

Lemma keep_path_true path :
  keep_path env path = true
  <-> (1 < String.length path)%nat
      /\ exists size, stat_listing env path = Some size /\ size <> 0.
Proof.
  unfold keep_path. rewrite andb_true_iff, Nat.ltb_lt.
  split; intros [Hlen Hsize]; (split; [done|]).
  - destruct (stat_listing env path) as [size|]; [|done].
    exists size. split; [done|]. intros ->. done.
  - destruct Hsize as (size & -> & Hnz).
    by destruct (Z.eqb_spec size 0).
Qed.

(** What copying one listed file does to the disk. *)
Lemma copy_open_file_disk archive path size w :
  stat_copy env path = Some size ->
  disk (snd (copy_open_file env archive path w))
  = if size >? _MAX_OPEN_FILE_SIZE then disk w
    else match zip_write_file env path with
         | Copied content =>
             <[archive := default [] (disk w !! archive)
                          ++ [(strip_drive env path, PBytes content)]]>
               (disk w)
         | _ => disk w
         end.
Proof.
  intros Hsize.
  unfold copy_open_file, bind, try_except, emit, lift, zip_entry, raise.
  simpl. rewrite Hsize. simpl.
  destruct (size >? _MAX_OPEN_FILE_SIZE); simpl; [done|].
  destruct (zip_write_file env path) as [content| | |e]; try done.
  by destruct e.
Qed.

End FilesFacts.

(** C6, as amended.  The list [dump_loaded_files] returns has no duplicate:
    its paths are the paths gathered from the chosen processes that are
    longer than one character and name a file that exists with a size
    other than 0.  The sizes are not compared with the ceiling there; the
    ceiling is applied when a listed file is copied into the archive: a
    file above 10,000,000 bytes is not copied, and a readable file of
    10,000,000 bytes or less, so one of exactly 10,000,000 bytes, is
    copied. *)
Theorem open_files_listing (env : Env) (w w' : World) (L : list string) :
  dump_loaded_files env w = (Ret L, w') ->
  NoDup L
  /\ (forall path,
        path ∈ L <->
        exists ps size,
          fst (get_processes_dict env w) = Ret ps
          /\ path ∈ candidates ps
          /\ (1 < String.length path)%nat
          /\ stat_listing env path = Some size /\ size <> 0)
  /\ (forall archive path size content wc,
        stat_copy env path = Some size ->
        zip_write_file env path = Copied content ->
        disk (snd (copy_open_file env archive path wc))
        = if size >? 10000000 then disk wc
          else <[archive := default [] (disk wc !! archive)
                            ++ [(strip_drive env path, PBytes content)]]>
                 (disk wc)).
Proof.
  rewrite dump_loaded_files_eq, get_processes_dict_eq. simpl.
  destruct (process_choice env _ _) as [ps|e] eqn:Hps; [|done].
  intros [= <- _]. split; [|split].
  - apply NoDup_ListNoDup, List.NoDup_filter, NoDup_ListNoDup, NoDup_elements.
  - intros path. rewrite list_elem_of_In, List.filter_In, <- list_elem_of_In.
    rewrite elem_of_elements, elem_of_list_to_set, keep_path_true.
    split.
    + intros (Hin & Hlen & size & Hsize & Hnz). by exists ps, size.
    + intros (ps' & size & [= <-] & Hin & Hlen & Hsize & Hnz). eauto.
  - intros archive path size content wc Hsize Hcopy.
    rewrite (copy_open_file_disk env archive path size wc Hsize).
    by rewrite Hcopy.
Qed.

Lemma open_files_listing_witness :
  let L := ["/tmp/exact"; "/tmp/a"; "/tmp/big"] in
  dump_loaded_files Host.quiet initial_world
  = (Ret L, add_trace [EvProcessIter] initial_world)
  /\ NoDup L
  /\ ("/tmp/exact" ∈ L <->
      exists ps size,
        fst (get_processes_dict Host.quiet initial_world) = Ret ps
        /\ "/tmp/exact" ∈ candidates ps
        /\ (1 < String.length "/tmp/exact")%nat
        /\ stat_listing Host.quiet "/tmp/exact" = Some size /\ size <> 0)
  /\ disk (snd (copy_open_file Host.quiet "out.zip" "/tmp/exact"
                  initial_world))
     = <["out.zip" := [("/tmp/exact", PBytes [x2a])]]> ∅
  /\ disk (snd (copy_open_file Host.quiet "out.zip" "/tmp/big"
                  initial_world))
     = ∅.
Proof.
  intros L.
  assert (Hrun : dump_loaded_files Host.quiet initial_world
                 = (Ret L, add_trace [EvProcessIter] initial_world)).
  { vm_compute. reflexivity. }
  destruct (open_files_listing Host.quiet initial_world _ L Hrun)
    as (Hnodup & Hmem & Hcopy).
  split; [exact Hrun|]. split; [exact Hnodup|]. split; [apply Hmem|].
  split.
  - exact (Hcopy "out.zip" "/tmp/exact" 10000000 [x2a] initial_world
             eq_refl eq_refl).
  - exact (Hcopy "out.zip" "/tmp/big" 10000001 [x2a] initial_world
             eq_refl eq_refl).
Defined.

(** C6, as stated, fails: an open file of 10,000,001 bytes is in
    [dumped_files], and so among the rows of [open_files.json]. *)
Lemma oversized_file_is_listed :
  let w' := snd (BaseSystem_init Host.quiet (Host.args None None true)
                   initial_world) in
  "/tmp/big" ∈ dumped_files (self w')
  /\ stat_listing Host.quiet "/tmp/big" = Some 10000001
  /\ ~ (10000001 <= 10000000).
Proof.
  intros w'.
  assert (H : dumped_files (self w') = ["/tmp/exact"; "/tmp/a"; "/tmp/big"]).
  { vm_compute. reflexivity. }
  rewrite H. split; [|split; [reflexivity | lia]].
  apply list_elem_of_further, list_elem_of_further, list_elem_of_here.
Qed.

(** ** The archive when the connections cannot be listed *)

Section ArchiveFacts.

Variable env : Env.
Variable path : string.

Lemma with_zip_step {A} (body : M A) w r w2 :
  body (opened path w) = (r, w2) ->
  with_zip path body w = (r, add_trace [EvZipClose path] w2).
Proof. intros H. unfold with_zip. fold (opened path w). by rewrite H. Qed.

Lemma take_screenshot_eq w :
  take_screenshot env w
  = (Ret (grab env),
     add_trace
       (EvGrab :: match grab env with
                  | Some _ => []
                  | None => [Log Error "Unable to take screenshot"]
                  end) w).
Proof.
  unfold take_screenshot, try_except, bind, emit, lift, ret, add_trace.
  simpl. destruct (grab env); simpl; [done|].
  by rewrite <- app_assoc.
Qed.

End ArchiveFacts.

Section WritesFacts.

Variable env : Env.
Variable path : string.

Lemma writes_ret : writes path [] (ret tt).
Proof.
  intros w old w' Hold [= <-]. exists [].
  rewrite !app_nil_r, insert_id by done. by destruct w.
Qed.

Lemma writes_emit e : is_selection e = false -> writes path [] (emit e).
Proof.
  intros He w old w' Hold [= <-]. exists [e].
  rewrite app_nil_r, insert_id by done. simpl. by rewrite He.
Qed.

Lemma writes_zip_entry ename p :
  writes path [(ename, p)] (zip_entry path ename p).
Proof.
  intros w old w' Hold. unfold zip_entry. rewrite Hold. intros [= <-].
  by exists [EvZipEntry path ename].
Qed.

Lemma writes_bind (m : M unit) (k : unit -> M unit) new1 new2 :
  writes path new1 m -> (forall u, writes path new2 (k u)) ->
  writes path (new1 ++ new2) (bind m k).
Proof.
  intros Hm Hk w old w' Hold Hrun. unfold bind in Hrun.
  destruct (m w) as [[[]|e] w1] eqn:Hrun1; [|discriminate].
  destruct (Hm w old w1 Hold Hrun1) as (t1 & -> & Ht1).
  destruct (Hk tt _ (old ++ new1) w' (lookup_insert_eq _ _ _) Hrun)
    as (t2 & -> & Ht2).
  exists (t1 ++ t2). simpl.
  rewrite insert_insert_eq, <- !app_assoc, List.filter_app, Ht1, Ht2.
  done.
Qed.

Lemma writes_when (b : bool) (new : list entry) (m : M unit) :
  writes path new m -> writes path (if b then new else []) (when b m).
Proof. destruct b; [done|]. intros _. apply writes_ret. Qed.

Lemma returns_ret : returns (ret tt).
Proof. done. Qed.

Lemma returns_emit e : returns (emit e).
Proof. done. Qed.

Lemma returns_zip_entry ename p : returns (zip_entry path ename p).
Proof. done. Qed.

Lemma returns_bind (m : M unit) (k : unit -> M unit) :
  returns m -> (forall u, returns (k u)) -> returns (bind m k).
Proof.
  intros Hm Hk w. unfold bind. specialize (Hm w).
  destruct (m w) as [[u|e] w1]; simpl in Hm; [apply Hk | discriminate].
Qed.

Lemma returns_when (b : bool) (m : M unit) : returns m -> returns (when b m).
Proof. by destruct b. Qed.

(** A step that returns, and what it leaves. *)
Lemma run_of_writes (m : M unit) (new : list entry) :
  writes path new m -> returns m ->
  forall w old, disk w !! path = Some old ->
  exists t,
    m w = (Ret tt,
           {| self := self w; disk := <[path := old ++ new]> (disk w);
              trace := trace w ++ t |})
    /\ List.filter is_selection t = [].
Proof.
  intros Hw Hr w old Hold. specialize (Hr w).
  destruct (m w) as [[[]|e] w'] eqn:Hrun; simpl in Hr; [|discriminate].
  destruct (Hw w old w' Hold Hrun) as (t & -> & Ht). by exists t.
Qed.

(** The copy of one file: it returns with the file added or passed over,
    or it raises with nothing added. *)
Lemma copy_open_file_run f w old :
  disk w !! path = Some old ->
  exists r t,
    copy_open_file env path f w
    = (r,
       {| self := self w;
          disk := <[path := old ++ match r with
                                   | Ret _ => copy_entries env f
                                   | Raise _ => []
                                   end]> (disk w);
          trace := trace w ++ t |})
    /\ List.filter is_selection t = []
    /\ (copy_handled env f -> r = Ret tt).
Proof.
  intros Hold.
  unfold copy_open_file, copy_entries, copy_handled, bind, try_except, emit,
    lift, zip_entry, raise.
  simpl.
  destruct (stat_copy env f) as [size|]; simpl.
  - destruct (size >? _MAX_OPEN_FILE_SIZE); simpl.
    { eexists (Ret tt), _.
      by rewrite app_nil_r, insert_id, <- app_assoc. }
    destruct (zip_write_file env f) as [content| | |e]; simpl.
    + rewrite Hold. eexists (Ret tt), _. by rewrite <- app_assoc.
    + eexists (Ret tt), _. by rewrite app_nil_r, insert_id, <- app_assoc.
    + eexists (Ret tt), _. by rewrite app_nil_r, insert_id, <- app_assoc.
    + destruct e; simpl;
        try (eexists (Ret tt), _;
             by rewrite app_nil_r, insert_id, <- app_assoc);
        (eexists (Raise _), _; rewrite app_nil_r, insert_id by done;
         split; [reflexivity|]; split; [done|]; by intros [|]).
  - destruct (getsize_error env f) eqn:He; simpl;
      try (eexists (Ret tt), _;
           by rewrite app_nil_r, insert_id, <- app_assoc);
      (eexists (Raise _), _; rewrite app_nil_r, insert_id by done;
       split; [reflexivity|]; split; [done|]; done).
Qed.

(** The loop over [dumped_files]: it stops at the first copy that
    raises. *)
Lemma copies_run (files : list string) : forall w old,
  disk w !! path = Some old ->
  exists r t copied,
    for_each files (copy_open_file env path) w
    = (r,
       {| self := self w; disk := <[path := old ++ copied]> (disk w);
          trace := trace w ++ t |})
    /\ copied `prefix_of` flat_map (copy_entries env) files
    /\ List.filter is_selection t = []
    /\ (r = Ret tt -> copied = flat_map (copy_entries env) files)
    /\ (Forall (copy_handled env) files -> r = Ret tt).
Proof.
  induction files as [|f files IH]; intros w old Hold.
  - exists (Ret tt), [], []. simpl. unfold ret.
    rewrite !app_nil_r, insert_id by done. by destruct w.
  - destruct (copy_open_file_run f w old Hold) as (r1 & t1 & Hrun1 & Ht1 & Hr1).
    cbn [for_each]. unfold bind at 1. rewrite Hrun1.
    destruct r1 as [[]|e].
    + destruct (IH {| self := self w;
                      disk := <[path := old ++ copy_entries env f]> (disk w);
                      trace := trace w ++ t1 |}
                  (old ++ copy_entries env f))
        as (r & t & copied & Hrun & Hpre & Ht & Hret & Hall);
        [apply lookup_insert_eq|].
      rewrite Hrun. cbn [self disk trace].
      exists r, (t1 ++ t), (copy_entries env f ++ copied).
      rewrite insert_insert_eq, <- !app_assoc. split; [reflexivity|].
      split; [by apply prefix_app|].
      split; [by rewrite List.filter_app, Ht1, Ht|].
      split.
      * intros Hr. cbn [flat_map]. by rewrite (Hret Hr).
      * intros Hfiles. apply Forall_cons in Hfiles as [_ Hfiles]. auto.
    + exists (Raise e), t1, []. split; [reflexivity|].
      split; [apply prefix_nil|]. split; [exact Ht1|].
      split; [done|].
      intros Hfiles. apply Forall_cons in Hfiles as [Hf _].
      by specialize (Hr1 Hf).
Qed.

(** The body of the [with] statement of [acquire_volatile]: the
    screenshot, the tables and the network log are written, then the
    copies up to the first that raises. *)
Lemma archive_body_run (s : Self) w old :
  disk w !! path = Some old ->
  exists r t copied,
    archive_body env path s w
    = (r,
       {| self := self w;
          disk := <[path := old ++ screenshot_entries env s
                            ++ table_entries s ++ netstat_entries s
                            ++ copied]> (disk w);
          trace := trace w ++ t |})
    /\ copied `prefix_of` flat_map (copy_entries env) (dumped_files s)
    /\ List.filter is_selection t = []
    /\ (r = Ret tt -> copied = flat_map (copy_entries env) (dumped_files s))
    /\ (Forall (copy_handled env) (dumped_files s) -> r = Ret tt).
Proof.
  intros Hold.
  destruct (run_of_writes
              (when (truthy_bytes (grab env))
                 (zip_entry path (screenshot_name env s)
                    (PBytes (default [] (grab env)))))
              (screenshot_entries env s)) with (w := w) (old := old)
    as (t1 & Hrun1 & Ht1);
    [unfold screenshot_entries; apply writes_when, writes_zip_entry
    |apply returns_when, returns_zip_entry | exact Hold |].
  set (w1 := {| self := self w;
                disk := <[path := old ++ screenshot_entries env s]> (disk w);
                trace := trace w ++ t1 |}) in *.
  destruct (run_of_writes
              (for_each
                 [("processes",
                   dict_to_json (map row_of_process (process_info s)));
                  ("open_files",
                   dict_to_json (map (fun f => [("Open File", JStr f)])
                                   (dumped_files s)))]
                 (fun kv => zip_entry path (fst kv +:+ ".json") (snd kv)))
              (table_entries s)) with (w := w1)
                                      (old := old ++ screenshot_entries env s)
    as (t2 & Hrun2 & Ht2).
  { unfold table_entries, dict_to_json. cbn [for_each fst snd].
    apply (writes_bind _ _ [_] [_]); [apply writes_zip_entry|].
    intros _.
    apply (writes_bind _ _ [_] []); [apply writes_zip_entry|].
    intros _. apply writes_ret. }
  { cbn [for_each]. apply returns_bind; [apply returns_zip_entry|].
    intros _. apply returns_bind; [apply returns_zip_entry|].
    intros _. apply returns_ret. }
  { apply lookup_insert_eq. }
  set (w2 := {| self := self w1; disk := _; trace := trace w1 ++ t2 |}) in *.
  destruct (run_of_writes
              (when (negb (bool_decide (network_log s = [])))
                 (run emit (Log Info "Adding Netstat Data");
                  zip_entry path "netstat.log"
                    (PText (Str.join crlf (network_log s)))))
              (netstat_entries s)) with
    (w := w2)
    (old := (old ++ screenshot_entries env s) ++ table_entries s)
    as (t3 & Hrun3 & Ht3).
  { unfold netstat_entries. case_bool_decide; simpl.
    - apply writes_ret.
    - apply (writes_bind _ _ [] [_]); [by apply writes_emit|].
      intros _. apply writes_zip_entry. }
  { apply returns_when, returns_bind; [apply returns_emit|].
    intros _. apply returns_zip_entry. }
  { apply lookup_insert_eq. }
  set (w3 := {| self := self w2; disk := _; trace := trace w2 ++ t3 |}) in *.
  destruct (copies_run (dumped_files s) w3
              (((old ++ screenshot_entries env s) ++ table_entries s)
               ++ netstat_entries s))
    as (r & t4 & copied & Hrun4 & Hpre & Ht4 & Hret & Hall);
    [apply lookup_insert_eq|].
  exists r, (t1 ++ t2 ++ t3 ++ t4), copied.
  split; [|repeat split; try done;
           by rewrite !List.filter_app, Ht1, Ht2, Ht3, Ht4].
  unfold archive_body.
  erewrite bind_step by exact Hrun1.
  erewrite bind_step by exact Hrun2.
  erewrite bind_step by exact Hrun3.
  unfold truthy_method, when. rewrite Hrun4.
  subst w3 w2 w1. cbn [self disk trace].
  rewrite !insert_insert_eq, <- !app_assoc. reflexivity.
Qed.

End WritesFacts.

Section AcquireFacts.

Variable env : Env.

Lemma is_selection_selector p : is_selection (selector_event p) = true.
Proof. unfold selector_event. by destruct (truthy_int p). Qed.

(** What [get_network] returns and what it asks do not depend on the
    world, and it asks psutil for no process. *)
Lemma network_lines_world conns : forall network,
  exists r t,
    (forall w, network_lines env conns network w = (r, add_trace t w))
    /\ List.filter is_selection t = [].
Proof.
  induction conns as [|c conns IH]; intros network; simpl.
  - exists (Ret network), []. split; [|done]. intros w.
    unfold ret, add_trace. rewrite app_nil_r. by destruct w.
  - destruct (laddr c), (raddr c); try apply IH.
    unfold bind, emit, lift. simpl.
    destruct (Process_name env (conn_pid c)) as [pname|e]; simpl.
    + edestruct IH as (r & t & Hrt & Ht).
      exists r, (EvProcessName (conn_pid c) :: t). split; [|exact Ht].
      intros w. rewrite Hrt. unfold add_trace. simpl.
      by rewrite <- app_assoc.
    + by exists (Raise e), [EvProcessName (conn_pid c)].
Qed.

Lemma get_network_world :
  exists r t,
    (forall w, get_network env w = (r, add_trace t w))
    /\ List.filter is_selection t = [].
Proof.
  unfold get_network, bind, try_except, emit, lift, ret. simpl.
  destruct (net_connections env) as [conns|e]; simpl.
  - destruct (network_lines_world conns []) as (r & t & Hrt & Ht).
    exists r, (EvNetConnections :: t). split; [|exact Ht].
    intros w. rewrite Hrt. unfold add_trace. simpl. by rewrite <- app_assoc.
  - case_bool_decide; simpl.
    + eexists (Ret []), _. split.
      * intros w. unfold add_trace. by rewrite <- app_assoc.
      * done.
    + by exists (Raise e), [EvNetConnections].
Qed.

Lemma acquire_volatile_at_processes out w e :
  process_choice env (process_name (self w)) (process_id (self w)) = Raise e ->
  acquire_volatile env out w
  = (Raise e, add_trace [selector_event (process_id (self w))] w).
Proof.
  intros Hps. unfold acquire_volatile.
  erewrite bind_raise by (rewrite get_processes_eq, Hps; reflexivity).
  done.
Qed.

Lemma acquire_volatile_at_network out w ps e t :
  process_choice env (process_name (self w)) (process_id (self w)) = Ret ps ->
  (forall w0, get_network env w0 = (Raise e, add_trace t w0)) ->
  acquire_volatile env out w
  = (Raise e,
     {| self := set_process_info (map (process_row env) ps) (self w);
        disk := disk w;
        trace := trace w ++ selector_event (process_id (self w)) :: t |}).
Proof.
  intros Hps Hnet. unfold acquire_volatile.
  erewrite bind_step by (rewrite get_processes_eq, Hps; reflexivity).
  erewrite bind_step by reflexivity.
  erewrite bind_raise by apply Hnet.
  unfold add_trace. simpl. by rewrite <- app_assoc.
Qed.

(** [acquire_volatile] up to its [with] statement. *)
Lemma acquire_volatile_to_archive out w ps nlog t :
  process_choice env (process_name (self w)) (process_id (self w)) = Ret ps ->
  (forall w0, get_network env w0 = (Ret nlog, add_trace t w0)) ->
  let archive := archive_name env out (self w) in
  let s' := acquired env out ps nlog (self w) in
  acquire_volatile env out w
  = (run with_zip archive (archive_body env archive s'); ret archive)
      {| self := s'; disk := disk w;
         trace := trace w ++ events_before_archive env (self w) t |}.
Proof.
  intros Hps Hnet archive s'.
  unfold acquire_volatile.
  erewrite bind_step by (rewrite get_processes_eq, Hps; reflexivity).
  erewrite bind_step by reflexivity.
  erewrite bind_step by apply Hnet.
  erewrite bind_step by reflexivity.
  erewrite bind_step by reflexivity.
  match goal with
  | |- context [bind (if ?b then _ else _) ?k ?w0] =>
      set (wcur := w0);
      assert (Hdump :
        (if b then dump_loaded_files env else ret []) wcur
        = (Ret (dumped_files s'),
           add_trace (if include_open (self w)
                      then [selector_event (process_id (self w))] else [])
             wcur))
  end.
  { simpl. destruct (include_open (self w)).
    - rewrite dump_loaded_files_eq. simpl. by rewrite Hps.
    - unfold ret, add_trace. simpl. by rewrite app_nil_r. }
  erewrite bind_step by exact Hdump.
  erewrite bind_step by reflexivity.
  erewrite bind_step by reflexivity.
  unfold truthy_method at 1.
  erewrite bind_step by apply take_screenshot_eq.
  erewrite bind_step by reflexivity.
  match goal with
  | |- bind (with_zip ?p ?body) ?k ?w0 = _ ?wz =>
      replace w0 with wz; [reflexivity|]
  end.
  subst wcur. unfold add_trace, events_before_archive.
  cbn [self disk trace]. f_equal.
  rewrite <- !app_assoc. reflexivity.
Qed.

(** [acquire_volatile] once the processes and the connections are
    there: whatever the copies do, the archive is opened, written and
    closed; the path is returned unless a copy raises. *)
Lemma acquire_volatile_run out w ps nlog t :
  process_choice env (process_name (self w)) (process_id (self w)) = Ret ps ->
  (forall w0, get_network env w0 = (Ret nlog, add_trace t w0)) ->
  let archive := archive_name env out (self w) in
  let s' := acquired env out ps nlog (self w) in
  let copies := flat_map (copy_entries env) (dumped_files s') in
  exists r tb copied,
    acquire_volatile env out w
    = (r,
       {| self := s';
          disk := <[archive := default [] (disk w !! archive)
                               ++ screenshot_entries env s'
                               ++ table_entries s' ++ netstat_entries s'
                               ++ copied]> (disk w);
          trace := trace w ++ (events_before_archive env (self w) t
                               ++ EvZipOpen archive :: tb)
                   ++ [EvZipClose archive] |})
    /\ copied `prefix_of` copies
    /\ List.filter is_selection tb = []
    /\ (r = Ret archive \/ exists e, r = Raise e)
    /\ (r = Ret archive -> copied = copies)
    /\ (Forall (copy_handled env) (dumped_files s') ->
        r = Ret archive /\ copied = copies).
Proof.
  intros Hps Hnet archive s' copies.
  rewrite (acquire_volatile_to_archive out w ps nlog t Hps Hnet).
  fold archive. fold s'.
  set (wz := {| self := s'; disk := disk w; trace := _ |}).
  destruct (archive_body_run env archive s' (opened archive wz)
              (default [] (disk w !! archive)))
    as (rb & tb & copied & Hbody & Hpre & Htb & Hret & Hall).
  { unfold opened. simpl. by rewrite lookup_insert_eq. }
  destruct rb as [[]|e].
  - exists (Ret archive), tb, copied.
    erewrite bind_step by (apply with_zip_step; exact Hbody).
    split.
    { unfold ret, add_trace, opened, wz. cbn [self disk trace].
      f_equal. f_equal.
      - by rewrite insert_insert_eq.
      - rewrite <- !app_assoc. reflexivity. }
    split; [exact Hpre|]. split; [exact Htb|]. split; [by left|].
    split; [intros _; by apply Hret|].
    intros _. split; [done | by apply Hret].
  - exists (Raise e), tb, copied.
    erewrite bind_raise by (apply with_zip_step; exact Hbody).
    split.
    { unfold add_trace, opened, wz. cbn [self disk trace].
      f_equal. f_equal.
      - by rewrite insert_insert_eq.
      - rewrite <- !app_assoc. reflexivity. }
    split; [exact Hpre|]. split; [exact Htb|]. split; [right; eauto|].
    split; [done|].
    intros Hfiles. by specialize (Hall Hfiles).
Qed.

Lemma events_before_archive_selection (s : Self) t :
  List.filter is_selection t = [] ->
  List.filter is_selection (events_before_archive env s t)
  = selector_event (process_id s)
    :: (if include_open s then [selector_event (process_id s)] else []).
Proof.
  intros Ht. unfold events_before_archive.
  cbn [List.filter]. rewrite is_selection_selector. f_equal.
  rewrite !List.filter_app, Ht. cbn [app].
  assert (Hgrab : List.filter is_selection
                    (EvGrab :: match grab env with
                               | Some _ => []
                               | None => [Log Error "Unable to take screenshot"]
                               end) = []).
  { by destruct (grab env). }
  rewrite Hgrab, app_nil_r.
  destruct (include_open s); [|done].
  cbn [List.filter]. by rewrite is_selection_selector.
Qed.

End AcquireFacts.

Lemma no_text_entries (env : Env) (s : Self) (l : list entry)
    (ename : string) (t : string) :
  l = screenshot_entries env s ++ table_entries s
      ++ flat_map (copy_entries env) (dumped_files s) ->
  (ename, PText t) ∉ l.
Proof.
  intros -> Hin.
  apply elem_of_app in Hin as [Hin|Hin].
  { unfold screenshot_entries in Hin.
    destruct (truthy_bytes (grab env)); [|by apply elem_of_nil in Hin].
    by apply list_elem_of_singleton in Hin. }
  apply elem_of_app in Hin as [Hin|Hin].
  { unfold table_entries in Hin.
    apply elem_of_cons in Hin as [Hin|Hin]; [done|].
    by apply list_elem_of_singleton in Hin. }
  apply list_elem_of_In, in_flat_map in Hin as (f & _ & Hin).
  unfold copy_entries in Hin.
  destruct (stat_copy env f) as [size|]; [|done].
  destruct (size >? _MAX_OPEN_FILE_SIZE); [done|].
  destruct (zip_write_file env f); try done.
  by destruct Hin as [Hin|[]].
Qed.

(** C9.  When listing the connections is refused, [get_network] logs the
    refusal and returns the empty list.  In [acquire_volatile], the
    processes once enumerated, the archive is then opened, gets the
    screenshot and the two tables, gets no [netstat.log] (no entry added
    is a text), gets the copies of the open files, and is closed; no other
    file is touched.  The run returns the path of the archive unless a
    copy raises an exception the source does not handle (any exception of
    [os.path.getsize] or [zip_file.write] other than [FileNotFoundError]
    and [PermissionError]): the copies then stop at that file, and the
    archive is closed all the same. *)
Theorem access_denied_network (env : Env) (out : option string) (w : World)
    (ps : list proc_dict) :
  net_connections env = Raise AccessDenied ->
  fst (get_processes_dict env w) = Ret ps ->
  let archive := archive_name env out (self w) in
  let s' := acquired env out ps [] (self w) in
  let copies := flat_map (copy_entries env) (dumped_files s') in
  (forall w0,
     get_network env w0
     = (Ret [],
        add_trace
          [EvNetConnections;
           Log Error "Access denied attempting to get network connections"]
          w0))
  /\ exists r w' copied tr,
       acquire_volatile env out w = (r, w')
       /\ self w' = s'
       /\ network_log (self w') = []
       /\ disk w'
          = <[archive := default [] (disk w !! archive)
                         ++ screenshot_entries env s' ++ table_entries s'
                         ++ copied]> (disk w)
       /\ copied `prefix_of` copies
       /\ (forall ename t,
             (ename, PText t)
             ∉ screenshot_entries env s' ++ table_entries s' ++ copied)
       /\ trace w' = trace w ++ tr ++ [EvZipClose archive]
       /\ EvZipOpen archive ∈ tr
       /\ (r = Ret archive \/ exists e, r = Raise e)
       /\ (r = Ret archive -> copied = copies)
       /\ (Forall (copy_handled env) (dumped_files s') ->
           r = Ret archive /\ copied = copies).
Proof.
  intros Hden Hps archive s' copies.
  split; [intros w0; by apply get_network_denied|].
  rewrite get_processes_dict_eq in Hps. simpl in Hps.
  destruct (acquire_volatile_run env out w ps [] _ Hps
              (fun w0 => get_network_denied env w0 Hden))
    as (r & tb & copied & Hrun & Hpre & _ & Hres & Hfull & Hall).
  fold archive in Hrun, Hres, Hfull, Hall. fold s' in Hrun, Hpre, Hfull, Hall.
  fold copies in Hpre, Hfull, Hall.
  eexists r, _, copied, _. split; [exact Hrun|].
  cbn [self disk trace]. split; [reflexivity|]. split; [reflexivity|].
  split; [reflexivity|]. split; [exact Hpre|].
  split.
  { intros ename t Hin.
    apply (no_text_entries env s' _ ename t eq_refl).
    rewrite !elem_of_app in Hin. rewrite !elem_of_app.
    destruct Hin as [Hin|[Hin|Hin]]; [by left | by right; left |].
    right; right. destruct Hpre as [k Hk]. fold copies. rewrite Hk.
    apply elem_of_app. by left. }
  split; [reflexivity|].
  split; [apply elem_of_app; right; apply list_elem_of_here|].
  done.
Qed.

Lemma access_denied_network_witness :
  let w0 := configured Host.denied (Host.args None None true) initial_world in
  net_connections Host.denied = Raise AccessDenied
  /\ fst (get_processes_dict Host.denied w0) = Ret [Host.cat]
  /\ get_network Host.denied w0
     = (Ret [],
        add_trace
          [EvNetConnections;
           Log Error "Access denied attempting to get network connections"]
          w0)
  /\ exists w',
       acquire_volatile Host.denied None w0 = (Ret "lab-1704067200.5.zip", w')
       /\ (default [] (disk w' !! "lab-1704067200.5.zip")).*1
          = ["lab-1704067200.5.png"; "processes.json"; "open_files.json";
             "/tmp/exact"; "/tmp/a"]
       /\ last (trace w') = Some (EvZipClose "lab-1704067200.5.zip").
Proof.
  intros w0.
  assert (Hfiles : Forall (copy_handled Host.denied)
                     (dumped_files
                        (acquired Host.denied None [Host.cat] [] (self w0)))).
  { apply Forall_forall. intros f _. unfold copy_handled. simpl.
    destruct (Host.sizes f) as [size|]; [|reflexivity].
    by destruct (size >? _MAX_OPEN_FILE_SIZE). }
  assert (Harchive : archive_name Host.denied None (self w0)
                     = "lab-1704067200.5.zip") by (vm_compute; reflexivity).
  destruct (access_denied_network Host.denied None w0 [Host.cat]
              eq_refl eq_refl)
    as [Hnet (r & w' & copied & tr & Hrun & _ & _ & _ & _ & _ & Htrace & _
              & _ & _ & Hall)].
  destruct (Hall Hfiles) as [-> _].
  rewrite Harchive in Hrun, Htrace.
  split; [reflexivity|]. split; [reflexivity|].
  split; [apply Hnet|].
  exists w'. split; [exact Hrun|]. split.
  - apply (f_equal (fun r => (default [] (disk (snd r)
                                 !! "lab-1704067200.5.zip")).*1)) in Hrun.
    cbv beta in Hrun. cbn [snd] in Hrun. rewrite <- Hrun.
    vm_compute. reflexivity.
  - by rewrite Htrace, !app_assoc, last_snoc.
Defined.

(** * Further properties *)

(** ** The memory map parser, continued *)

Lemma hex_digit_nonneg c : 0 <= Str.hex_digit c.
Proof.
  unfold Str.hex_digit, Str.between.
  repeat case_match; try lia;
    repeat match goal with
           | H : (_ && _)%bool = true |- _ => apply andb_prop in H as [? ?]
           | H : (_ <=? _)%N = true |- _ => apply N.leb_le in H
           end; lia.
Qed.

Lemma int16_from_nonneg s : forall acc, 0 <= acc -> 0 <= Str.int16_from acc s.
Proof.
  induction s as [|c s IH]; intros acc Hacc; simpl; [done|].
  apply IH. pose proof (hex_digit_nonneg c). lia.
Qed.

Lemma parse_lines_all_match lines : forall acc,
  (forall line, line ∈ lines -> Maps.re_match line <> None) ->
  Maps.parse_lines acc lines = Ret (acc ++ omap readable_range lines).
Proof.
  induction lines as [|line lines IH]; intros acc Hall; simpl.
  - by rewrite app_nil_r.
  - assert (Hline : Maps.re_match line <> None) by (apply Hall; left).
    unfold Maps.parse_line, readable_range.
    destruct (Maps.re_match line) as [[[g1 g2] flag]|]; [|done].
    destruct (Ascii.eqb flag "r").
    + rewrite IH by (intros; apply Hall; by right).
      by rewrite <- app_assoc.
    + apply IH. intros; apply Hall; by right.
Qed.

Lemma parse_mem_map_raise (env : Env) (p : Z)
    (p_name : string) (w : World) (e : exn) :
  proc_maps env p = Raise e ->
  parse_mem_map env p p_name w
  = if bool_decide (e = FileNotFoundError) then
      (Ret [],
       add_trace
         [EvProcMaps p;
          Log Warning ("Could not parse memory map for " +:+ p_name
                       +:+ " (pid " +:+ fmt_int p
                       +:+ "). Cannot dump this process.")] w)
    else if bool_decide (e = PermissionError) then
      (Ret [],
       add_trace
         [EvProcMaps p;
          Log Warning ("Permission denied parsing memory map for " +:+ p_name
                       +:+ " (pid " +:+ fmt_int p
                       +:+ "). Cannot dump this process.")] w)
    else (Raise e, add_trace [EvProcMaps p] w).
Proof.
  intros He.
  unfold parse_mem_map, try_excepts, bind, emit, lift, ret, add_trace.
  simpl. rewrite He. simpl.
  repeat case_bool_decide; simpl; try done; by rewrite <- app_assoc.
Qed.

(** X1.  A layout record that is not there, or that may not be read, gives
    the empty list and a warning; any other exception of the open or of the
    read leaves [parse_mem_map]. *)
Theorem parse_mem_map_unreadable_record (env : Env) (p : Z)
    (p_name : string) (w : World) (e : exn) :
  proc_maps env p = Raise e ->
  parse_mem_map env p p_name w
  = if bool_decide (e = FileNotFoundError) then
      (Ret [],
       add_trace
         [EvProcMaps p;
          Log Warning ("Could not parse memory map for " +:+ p_name
                       +:+ " (pid " +:+ fmt_int p
                       +:+ "). Cannot dump this process.")] w)
    else if bool_decide (e = PermissionError) then
      (Ret [],
       add_trace
         [EvProcMaps p;
          Log Warning ("Permission denied parsing memory map for " +:+ p_name
                       +:+ " (pid " +:+ fmt_int p
                       +:+ "). Cannot dump this process.")] w)
    else (Raise e, add_trace [EvProcMaps p] w).
Proof. apply parse_mem_map_raise. Qed.

Lemma parse_mem_map_unreadable_record_witness :
  let env := Host.host (Ret []) (fun _ => Ret "cat")
               (fun _ => Raise PermissionError) Host.readv_ok in
  proc_maps env 7 = Raise PermissionError
  /\ parse_mem_map env 7 "cat" initial_world
     = (Ret [],
        add_trace
          [EvProcMaps 7;
           Log Warning "Permission denied parsing memory map for cat (pid 7). Cannot dump this process."]
          initial_world).
Proof.
  split; [reflexivity|].
  exact (parse_mem_map_unreadable_record
           (Host.host (Ret []) (fun _ => Ret "cat")
              (fun _ => Raise PermissionError) Host.readv_ok)
           7 "cat" initial_world PermissionError eq_refl).
Defined.

Lemma parse_mem_map_match (env : Env) (p : Z) (p_name : string)
    (w : World) (lines : list string) :
  proc_maps env p = Ret lines ->
  (forall line, line ∈ lines -> Maps.re_match line <> None) ->
  parse_mem_map env p p_name w
  = (Ret (omap readable_range lines), add_trace [EvProcMaps p] w).
Proof.
  intros Hmaps Hall.
  unfold parse_mem_map, try_excepts, bind, emit, lift. simpl.
  rewrite Hmaps. by rewrite (parse_lines_all_match lines [] Hall).
Qed.

(** X2.  For a record all of whose lines the pattern accepts,
    [parse_mem_map] returns the ranges of the lines flagged [r], in the
    order of the record: a line flagged [-] gives nothing, and no line is
    given twice. *)
Theorem parse_mem_map_in_order (env : Env) (p : Z) (p_name : string)
    (w : World) (lines : list string) :
  proc_maps env p = Ret lines ->
  (forall line, line ∈ lines -> Maps.re_match line <> None) ->
  parse_mem_map env p p_name w
  = (Ret (omap readable_range lines), add_trace [EvProcMaps p] w).
Proof. apply parse_mem_map_match. Qed.

Lemma parse_mem_map_in_order_witness :
  proc_maps Host.quiet 7
  = Ret ["1000-1004 r-xp 00000000 08:01 131 /bin/cat";
         "2000-3000 ---p 00000000 00:00 0"]
  /\ (forall line,
        line ∈ ["1000-1004 r-xp 00000000 08:01 131 /bin/cat";
                "2000-3000 ---p 00000000 00:00 0"] ->
        Maps.re_match line <> None)
  /\ parse_mem_map Host.quiet 7 "cat" initial_world
     = (Ret [(4096, 4100)], add_trace [EvProcMaps 7] initial_world).
Proof.
  assert (Hall : forall line,
            line ∈ ["1000-1004 r-xp 00000000 08:01 131 /bin/cat";
                    "2000-3000 ---p 00000000 00:00 0"] ->
            Maps.re_match line <> None).
  { intros line Hin.
    apply elem_of_cons in Hin as [-> | Hin]; [done|].
    apply list_elem_of_singleton in Hin as ->. done. }
  split; [reflexivity|]. split; [exact Hall|].
  exact (parse_mem_map_in_order Host.quiet 7 "cat" initial_world _
           eq_refl Hall).
Defined.

(** X3.  The addresses [parse_mem_map] returns are never negative. *)
Theorem parse_mem_map_nonnegative (env : Env) (p : Z) (p_name : string)
    (w : World) (L : list (Z * Z)) (s e : Z) :
  fst (parse_mem_map env p p_name w) = Ret L ->
  (s, e) ∈ L ->
  0 <= s /\ 0 <= e.
Proof.
  unfold parse_mem_map, try_excepts, bind, emit, lift, ret. simpl.
  destruct (proc_maps env p) as [lines|ex] eqn:Hmaps.
  - destruct (Maps.parse_lines [] lines) as [L'|ex] eqn:Hp; simpl.
    + intros [= ->] Hin.
      destruct (MapsFacts.parse_lines_from _ _ _ Hp _ Hin)
        as [Hnil | (line & g1 & g2 & Hl & Hm & [= -> ->])].
      * by apply elem_of_nil in Hnil.
      * split; by apply int16_from_nonneg.
    + repeat case_bool_decide; simpl; intros HL Hin; simplify_eq;
        by apply elem_of_nil in Hin.
  - repeat case_bool_decide; simpl; intros HL Hin; simplify_eq;
      by apply elem_of_nil in Hin.
Qed.

Lemma parse_mem_map_nonnegative_witness :
  fst (parse_mem_map Host.quiet 7 "cat" initial_world) = Ret [(4096, 4100)]
  /\ (4096, 4100) ∈ [(4096, 4100)]
  /\ 0 <= 4096 /\ 0 <= 4100.
Proof.
  split; [reflexivity|]. split; [left|].
  apply (parse_mem_map_nonnegative Host.quiet 7 "cat" initial_world
           [(4096, 4100)]); [reflexivity | left].
Defined.

(** ** The region reader and the dump, continued *)

Lemma buff_raw_length (byte : Z) (data : bytes) :
  List.length (buff_raw byte data) = Z.to_nat byte.
Proof.
  unfold buff_raw. rewrite length_app, length_take, length_replicate. lia.
Qed.

Lemma read_bytes_ok (env : Env) (p a n : Z) (w : World) :
  0 <= n ->
  read_bytes env p a n w
  = (let '(rv, data) := process_vm_readv env p a n in
     if rv =? -1 then Ret None else Ret (Some (buff_raw n data)),
     add_trace [EvVmReadv p a n] w).
Proof.
  intros Hn. unfold read_bytes.
  destruct (Z.ltb_spec n 0) as [?|_]; [lia|].
  unfold bind, emit, ret. simpl.
  destruct (process_vm_readv env p a n) as [rv data].
  by destruct (rv =? -1).
Qed.

(** X4.  A read that does not fail gives a block of exactly the length
    asked for, whatever number of bytes the call reports: the block is
    what the call put in the buffer, cut or filled with zeros to that
    length. *)
Theorem read_bytes_block_length (env : Env) (p a n : Z) (w : World) :
  0 <= n ->
  fst (process_vm_readv env p a n) <> -1 ->
  exists block,
    read_bytes env p a n w
    = (Ret (Some block), add_trace [EvVmReadv p a n] w)
    /\ Z.of_nat (List.length block) = n
    /\ block
       = take (Z.to_nat n) (snd (process_vm_readv env p a n))
         ++ replicate (Z.to_nat n
                       - List.length (snd (process_vm_readv env p a n)))%nat
              x00.
Proof.
  intros Hn Hrv. rewrite read_bytes_ok by done.
  destruct (process_vm_readv env p a n) as [rv data]. simpl in *.
  destruct (Z.eqb_spec rv (-1)) as [?|_]; [done|].
  exists (buff_raw n data). split; [done|]. split; [|done].
  rewrite buff_raw_length. lia.
Qed.

Lemma read_bytes_block_length_witness :
  let env := Host.host (Ret []) (fun _ => Ret "cat") Host.layout
               (fun _ _ _ => (2, [x41; x42])) in
  0 <= 4
  /\ fst (process_vm_readv env 7 4096 4) <> -1
  /\ exists block,
       read_bytes env 7 4096 4 initial_world
       = (Ret (Some block), add_trace [EvVmReadv 7 4096 4] initial_world)
       /\ Z.of_nat (List.length block) = 4
       /\ block = [x41; x42; x00; x00].
Proof.
  split; [lia|]. split; [discriminate|].
  destruct (read_bytes_block_length
              (Host.host (Ret []) (fun _ => Ret "cat") Host.layout
                 (fun _ _ _ => (2, [x41; x42])))
              7 4096 4 initial_world ltac:(lia) ltac:(discriminate))
    as (block & Hrun & Hlen & Hblock).
  exists block. split; [exact Hrun|]. split; [exact Hlen|]. exact Hblock.
Defined.

(** X8.  A process whose map is empty (its record is missing or
    unreadable, or has no line flagged [r]) is passed over: no region is
    read, nothing is added to the archive, and the loop over the processes
    goes on. *)
Theorem dump_process_skips_empty_map (env : Env) (archive_out : string)
    (proc : proc_row) (rest : list proc_row) (w w1 : World) :
  parse_mem_map env (Process_ID proc) (Name proc) w = (Ret [], w1) ->
  dump_process env archive_out proc w = (Ret tt, w1)
  /\ disk w1 = disk w
  /\ for_each (proc :: rest) (dump_process env archive_out) w
     = for_each rest (dump_process env archive_out) w1.
Proof.
  intros Hparse.
  assert (Hrun : dump_process env archive_out proc w = (Ret tt, w1)).
  { unfold dump_process. erewrite bind_step by exact Hparse. done. }
  split; [exact Hrun|]. split.
  - pose proof (parse_mem_map_disk env (Process_ID proc) (Name proc) w) as Hd.
    by rewrite Hparse in Hd.
  - simpl. by erewrite bind_step by exact Hrun.
Qed.

Lemma dump_process_skips_empty_map_witness :
  let env := Host.host (Ret []) (fun _ => Ret "cat")
               (fun _ => Raise FileNotFoundError) Host.readv_ok in
  let w1 := add_trace
              [EvProcMaps 7;
               Log Warning "Could not parse memory map for cat (pid 7). Cannot dump this process."]
              initial_world in
  parse_mem_map env 7 "cat" initial_world = (Ret [], w1)
  /\ dump_process env "out.zip" Host.cat_row initial_world = (Ret tt, w1)
  /\ disk w1 = ∅
  /\ for_each [Host.cat_row; Host.cat_row] (dump_process env "out.zip")
       initial_world
     = for_each [Host.cat_row] (dump_process env "out.zip") w1.
Proof.
  intros env w1. split; [reflexivity|].
  exact (dump_process_skips_empty_map env "out.zip" Host.cat_row
           [Host.cat_row] initial_world w1 eq_refl).
Defined.

(** X9.  An exception raised while the regions of a process are read and
    written to the scratch file is kept inside the dump of that process
    when it is an [OSError] (a [PermissionError] and a
    [FileNotFoundError] are): a warning is logged and the process has no
    entry, the blocks read before the exception are not committed.  Any
    other exception leaves [dump_processes].  In both cases the archive is
    as it was. *)
Theorem dump_process_io_error (env : Env) (archive_out : string)
    (proc : proc_row) (w w1 w2 : World) (maps : list (Z * Z)) (e : exn) :
  let p := Process_ID proc in
  parse_mem_map env p (Name proc) w = (Ret maps, w1) ->
  maps <> [] ->
  read_regions env p maps [] w1 = (Raise e, w2) ->
  dump_process env archive_out proc w
  = (if subclass e OSError
     then (Ret tt, add_trace [dump_warning e (Name proc) p] w2)
     else (Raise e, w2))
  /\ disk (snd (dump_process env archive_out proc w)) = disk w.
Proof.
  intros p Hparse Hne Hread.
  assert (Hrun : dump_process env archive_out proc w
                 = (if subclass e OSError
                    then (Ret tt, add_trace [dump_warning e (Name proc) p] w2)
                    else (Raise e, w2))).
  { unfold dump_process. fold p. erewrite bind_step by exact Hparse.
    rewrite bool_decide_eq_false_2 by done.
    unfold try_excepts. erewrite bind_raise by exact Hread.
    destruct e; reflexivity. }
  split; [exact Hrun|].
  rewrite Hrun.
  pose proof (parse_mem_map_disk env p (Name proc) w) as Hd1.
  rewrite Hparse in Hd1.
  pose proof (read_regions_disk env p maps [] w1) as Hd2.
  rewrite Hread in Hd2. simpl in Hd1, Hd2.
  destruct (subclass e OSError); simpl; congruence.
Qed.

Lemma dump_process_io_error_witness :
  let w1 := add_trace [EvProcMaps 7] initial_world in
  let w2 := add_trace [EvVmReadv 7 4096 4] w1 in
  parse_mem_map Lab.disk_full 7 "cat" initial_world = (Ret [(4096, 4100)], w1)
  /\ [(4096, 4100)] <> []
  /\ read_regions Lab.disk_full 7 [(4096, 4100)] [] w1 = (Raise OSError, w2)
  /\ dump_process Lab.disk_full "out.zip" Host.cat_row initial_world
     = (Ret tt,
        add_trace
          [Log Warning "Error opening process memory page for cat (pid 7). Dump may be incomplete."]
          w2)
  /\ disk (snd (dump_process Lab.disk_full "out.zip" Host.cat_row
                  initial_world)) = ∅.
Proof.
  intros w1 w2. split; [reflexivity|]. split; [discriminate|].
  split; [reflexivity|].
  exact (dump_process_io_error Lab.disk_full "out.zip" Host.cat_row
           initial_world w1 w2 [(4096, 4100)] OSError eq_refl
           ltac:(discriminate) eq_refl).
Defined.

(** ** What [acquire_volatile] leaves *)

(** *** Strings *)

Lemma string_app_cons (x : ascii) (a b : string) :
  String x a +:+ b = String x (a +:+ b).
Proof. reflexivity. Qed.

Lemma string_app_assoc (a b c : string) : (a +:+ b) +:+ c = a +:+ (b +:+ c).
Proof.
  induction a as [|x a IH]; [done|].
  rewrite !string_app_cons. by f_equal.
Qed.

Lemma string_app_length (a b : string) :
  String.length (a +:+ b) = (String.length a + String.length b)%nat.
Proof.
  induction a as [|x a IH]; [done|].
  rewrite string_app_cons. simpl. by f_equal.
Qed.

Lemma substring_all (s : string) : String.substring 0 (String.length s) s = s.
Proof. induction s as [|x s IH]; simpl; [done|]. by f_equal. Qed.

Lemma substring_suffix (a b : string) :
  String.substring (String.length a) (String.length b) (a +:+ b) = b.
Proof.
  induction a as [|x a IH]; [apply substring_all|].
  rewrite string_app_cons. exact IH.
Qed.

Lemma endswith_app (a suffix : string) :
  Str.endswith (a +:+ suffix) suffix = true.
Proof.
  unfold Str.endswith. rewrite string_app_length.
  destruct (Nat.leb_spec (String.length suffix)
              (String.length a + String.length suffix)) as [_|?]; [|lia].
  replace (String.length a + String.length suffix - String.length suffix)%nat
    with (String.length a) by lia.
  rewrite substring_suffix. apply String.eqb_refl.
Qed.

Lemma archive_name_endswith (env : Env) (out : option string) (s : Self) :
  Str.endswith (archive_name env out s) ".zip" = true.
Proof.
  unfold archive_name.
  destruct (Str.endswith (output_name env out s) ".zip") eqn:He; simpl.
  - exact He.
  - apply endswith_app.
Qed.

Lemma default_output_endswith (env : Env) (s : Self) :
  Str.endswith (output_name env None s) ".zip" = true.
Proof.
  unfold output_name. simpl.
  rewrite <- (string_app_assoc "-"), <- string_app_assoc.
  apply endswith_app.
Qed.

(** *** What [acquire_volatile] does, by cases *)

Lemma acquire_volatile_inv (env : Env) (out : option string) (w w' : World)
    (archive : string) :
  acquire_volatile env out w = (Ret archive, w') ->
  exists ps nlog tr,
    fst (get_processes_dict env w) = Ret ps
    /\ fst (get_network env w) = Ret nlog
    /\ archive = archive_name env out (self w)
    /\ w' = {| self := acquired env out ps nlog (self w);
               disk := <[archive := default [] (disk w !! archive)
                                    ++ archive_entries env
                                         (acquired env out ps nlog (self w))]>
                         (disk w);
               trace := trace w ++ tr ++ [EvZipClose archive] |}
    /\ List.filter is_selection tr
       = selector_event (process_id (self w))
         :: (if include_open (self w)
             then [selector_event (process_id (self w))] else []).
Proof.
  intros Hrun. rewrite get_processes_dict_eq. simpl.
  destruct (process_choice env (process_name (self w)) (process_id (self w)))
    as [ps|e] eqn:Hps.
  2:{ rewrite (acquire_volatile_at_processes env out w e Hps) in Hrun.
      discriminate. }
  destruct (get_network_world env) as (r & t & Hnet & Ht).
  destruct r as [nlog|e].
  2:{ rewrite (acquire_volatile_at_network env out w ps e t Hps Hnet) in Hrun.
      discriminate. }
  destruct (acquire_volatile_run env out w ps nlog t Hps Hnet)
    as (r & tb & copied & Hret & _ & Htb & Hres & Hfull & _).
  rewrite Hret in Hrun.
  destruct Hres as [-> | [e ->]]; [|discriminate].
  injection Hrun as <- <-.
  rewrite (Hfull eq_refl).
  exists ps, nlog,
    (events_before_archive env (self w) t
     ++ EvZipOpen (archive_name env out (self w)) :: tb).
  rewrite Hnet.
  split; [done|]. split; [done|]. split; [done|]. split; [reflexivity|].
  rewrite List.filter_app, (events_before_archive_selection env (self w) t Ht).
  cbn [List.filter is_selection]. rewrite Htb, app_nil_r. reflexivity.
Qed.

(** X10.  The path [acquire_volatile] returns ends with [.zip]: it is the
    path given when that ends with [.zip], the path given followed by
    [.zip] when it does not, and [<machine>-<timestamp>.zip] when no path
    is given.  The attribute [output_path] is the path before the suffix
    is added: for a path given without the suffix it is not the path of the
    archive. *)
Theorem acquire_volatile_paths (env : Env) (out : option string)
    (w w' : World) (archive : string) :
  acquire_volatile env out w = (Ret archive, w') ->
  archive = archive_name env out (self w)
  /\ Str.endswith archive ".zip" = true
  /\ output_path (self w') = output_name env out (self w)
  /\ (truthy_str out = false ->
      archive = get_machine_name env +:+ "-" +:+ timestamp (self w)
                +:+ ".zip"
      /\ output_path (self w') = archive)
  /\ (Str.endswith (output_name env out (self w)) ".zip" = true ->
      output_path (self w') = archive)
  /\ (Str.endswith (output_name env out (self w)) ".zip" = false ->
      archive = output_path (self w') +:+ ".zip"
      /\ output_path (self w') <> archive).
Proof.
  intros Hrun.
  destruct (acquire_volatile_inv env out w w' archive Hrun)
    as (ps & nlog & tr & _ & _ & -> & -> & _).
  cbn [self acquired set_output_path output_path].
  split; [done|]. split; [apply archive_name_endswith|]. split; [done|].
  split; [|split].
  - intros Hout. unfold archive_name.
    assert (Hname : output_name env out (self w)
                    = get_machine_name env +:+ "-" +:+ timestamp (self w)
                      +:+ ".zip").
    { unfold output_name. by rewrite Hout. }
    assert (Hends : Str.endswith (output_name env out (self w)) ".zip" = true).
    { rewrite Hname. apply (default_output_endswith env (self w)). }
    rewrite Hends. simpl. by rewrite Hname.
  - intros Hends. unfold archive_name. by rewrite Hends.
  - intros Hends. unfold archive_name. rewrite Hends. simpl.
    split; [done|]. intros Heq.
    apply (f_equal String.length) in Heq.
    rewrite string_app_length in Heq. simpl in Heq. lia.
Qed.

Lemma acquire_volatile_paths_witness :
  exists w',
    acquire_volatile Host.quiet (Some "evidence") initial_world
    = (Ret "evidence.zip", w')
    /\ Str.endswith "evidence.zip" ".zip" = true
    /\ output_path (self w') = "evidence"
    /\ output_path (self w') <> "evidence.zip".
Proof.
  destruct (acquire_volatile Host.quiet (Some "evidence") initial_world)
    as [r w'] eqn:Hrun.
  assert (Hr : r = Ret "evidence.zip").
  { apply (f_equal fst) in Hrun. simpl in Hrun. rewrite <- Hrun.
    vm_compute. reflexivity. }
  subst r. exists w'.
  destruct (acquire_volatile_paths Host.quiet (Some "evidence")
              initial_world w' "evidence.zip" Hrun)
    as (_ & Hends & Hout & _ & _ & Hsuffix).
  split; [reflexivity|]. split; [exact Hends|]. split; [exact Hout|].
  apply Hsuffix. reflexivity.
Defined.

Lemma acquire_volatile_disk (env : Env) (out : option string)
    (w w' : World) (archive : string) :
  acquire_volatile env out w = (Ret archive, w') ->
  disk w' !! archive
  = Some (default [] (disk w !! archive)
          ++ screenshot_entries env (self w')
          ++ table_entries (self w')
          ++ netstat_entries (self w')
          ++ flat_map (copy_entries env) (dumped_files (self w')))
  /\ forall other, other <> archive -> disk w' !! other = disk w !! other.
Proof.
  intros Hrun.
  destruct (acquire_volatile_inv env out w w' archive Hrun)
    as (ps & nlog & tr & _ & _ & Harchive & -> & _).
  cbn [self disk]. split.
  - by rewrite lookup_insert_eq.
  - intros other Hne. by rewrite lookup_insert_ne.
Qed.



(** X12.  When a process is selected by its identifier and psutil cannot
    give it (the process is gone, access is denied), the exception of
    psutil leaves [get_processes_dict], [acquire_volatile] and [__init__]:
    the selection is the only thing asked of the host and no file is
    written. *)
Theorem init_selected_process_missing (env : Env) (a : InitArgs)
    (w : World) (p : Z) (e : exn) :
  arg_process_id a = Some p -> p <> 0 ->
  truthy_str (arg_process_name a) = false ->
  Process env p = Raise e ->
  BaseSystem_init env a w
  = (Raise e, add_trace [EvProcess p] (configured env a w))
  /\ disk (snd (BaseSystem_init env a w)) = disk w.
Proof.
  intros Hp Hnz Hname He.
  assert (Hrun : BaseSystem_init env a w
                 = (Raise e, add_trace [EvProcess p] (configured env a w))).
  { rewrite BaseSystem_init_eq, Hname. simpl.
    unfold acquisition.
    erewrite bind_raise; [reflexivity|].
    rewrite acquire_volatile_at_processes with (e := e).
    - simpl. unfold selector_event. rewrite Hp. simpl.
      by destruct (Z.eqb_spec p 0).
    - simpl. unfold process_choice. rewrite Hp. simpl.
      destruct (Z.eqb_spec p 0); [done|]. simpl. by rewrite He. }
  split; [exact Hrun|]. by rewrite Hrun.
Qed.

Lemma init_selected_process_missing_witness :
  let a := Host.args None (Some 99) true in
  arg_process_id a = Some 99 /\ 99 <> 0
  /\ truthy_str (arg_process_name a) = false
  /\ Process Host.quiet 99 = Raise NoSuchProcess
  /\ BaseSystem_init Host.quiet a initial_world
     = (Raise NoSuchProcess,
        add_trace [EvProcess 99] (configured Host.quiet a initial_world))
  /\ disk (snd (BaseSystem_init Host.quiet a initial_world)) = ∅.
Proof.
  intros a. split; [reflexivity|]. split; [lia|]. split; [reflexivity|].
  split; [reflexivity|].
  exact (init_selected_process_missing Host.quiet a initial_world 99
           NoSuchProcess eq_refl ltac:(lia) eq_refl eq_refl).
Defined.

(** X13.  When [acquire_volatile] returns, [process_info] has one row for
    each process chosen, in the order psutil gave them, with the
    identifier and the name of the process: the rows of [processes.json]
    and the processes [dump_processes] goes through. *)
Theorem acquire_volatile_process_rows (env : Env) (out : option string)
    (w w' : World) (archive : string) :
  acquire_volatile env out w = (Ret archive, w') ->
  exists ps,
    fst (get_processes_dict env w) = Ret ps
    /\ List.length (process_info (self w')) = List.length ps
    /\ map Process_ID (process_info (self w')) = map pid ps
    /\ map Name (process_info (self w')) = map name ps
    /\ (("processes.json",
         PTable (map row_of_process (process_info (self w'))))
        ∈ default [] (disk w' !! archive)).
Proof.
  intros Hrun.
  destruct (acquire_volatile_disk env out w w' archive Hrun)
    as [Hentries _].
  destruct (acquire_volatile_inv env out w w' archive Hrun)
    as (ps & nlog & tr & Hps & _ & _ & Hw' & _).
  exists ps. split; [exact Hps|].
  assert (Hinfo : process_info (self w') = map (process_row env) ps).
  { by rewrite Hw'. }
  rewrite Hinfo. split; [by rewrite length_map|].
  split; [by rewrite <- list_fmap_compose|].
  split; [by rewrite <- list_fmap_compose|].
  rewrite Hentries, <- Hinfo. simpl.
  apply elem_of_app. right. apply elem_of_app. right.
  unfold table_entries. left.
Qed.

Lemma acquire_volatile_process_rows_witness :
  exists w',
    acquire_volatile Host.quiet None initial_world = (Ret "lab-.zip", w')
    /\ fst (get_processes_dict Host.quiet initial_world) = Ret [Host.cat]
    /\ map Process_ID (process_info (self w')) = [7]
    /\ map Name (process_info (self w')) = ["cat"].
Proof.
  destruct (acquire_volatile Host.quiet None initial_world) as [r w'] eqn:Hrun.
  assert (Hr : r = Ret "lab-.zip").
  { apply (f_equal fst) in Hrun. simpl in Hrun. rewrite <- Hrun.
    vm_compute. reflexivity. }
  subst r. exists w'.
  destruct (acquire_volatile_process_rows Host.quiet None initial_world w'
              "lab-.zip" Hrun) as (ps & Hps & _ & Hpid & Hname & _).
  assert (Heq : fst (get_processes_dict Host.quiet initial_world)
                = Ret [Host.cat]) by reflexivity.
  rewrite Heq in Hps. injection Hps as <-.
  split; [reflexivity|]. split; [reflexivity|]. by split.
Defined.

(** X14.  With [include_open] off, [dump_loaded_files] is not called.
    Every call of [dump_loaded_files] asks psutil for the processes, and a
    run of [acquire_volatile] that returns with the flag off has asked for
    them once only, in [get_processes]; [dumped_files] is empty,
    [open_files.json] is a table with no row and no file is copied into
    the archive. *)
Theorem acquire_volatile_without_open_files (env : Env)
    (out : option string) (w w' : World) (archive : string) :
  include_open (self w) = false ->
  acquire_volatile env out w = (Ret archive, w') ->
  (forall w0,
     trace (snd (dump_loaded_files env w0))
     = trace w0 ++ [selector_event (process_id (self w0))])
  /\ (exists tr,
        trace w' = trace w ++ tr
        /\ List.filter is_selection tr
           = [selector_event (process_id (self w))])
  /\ dumped_files (self w') = []
  /\ disk w' !! archive
     = Some (default [] (disk w !! archive)
             ++ screenshot_entries env (self w')
             ++ [("processes.json",
                  PTable (map row_of_process (process_info (self w'))));
                 ("open_files.json", PTable [])]
             ++ netstat_entries (self w')).
Proof.
  intros Hopen Hrun.
  split; [intros w0; by rewrite dump_loaded_files_eq|].
  destruct (acquire_volatile_disk env out w w' archive Hrun)
    as [Hentries _].
  destruct (acquire_volatile_inv env out w w' archive Hrun)
    as (ps & nlog & tr & _ & _ & _ & Hw' & Htr).
  rewrite Hopen in Htr.
  split.
  { exists (tr ++ [EvZipClose archive]). split; [by rewrite Hw'|].
    by rewrite List.filter_app, Htr. }
  assert (Hdumped : dumped_files (self w') = []).
  { rewrite Hw'. simpl. by rewrite Hopen. }
  split; [exact Hdumped|].
  rewrite Hentries. unfold table_entries. rewrite Hdumped. simpl.
  by rewrite app_nil_r.
Qed.

Lemma acquire_volatile_without_open_files_witness :
  exists w',
    include_open (self initial_world) = false
    /\ acquire_volatile Host.quiet None initial_world = (Ret "lab-.zip", w')
    /\ List.filter is_selection (trace w') = [EvProcessIter]
    /\ dumped_files (self w') = []
    /\ (default [] (disk w' !! "lab-.zip")).*1
       = ["lab-.png"; "processes.json"; "open_files.json"].
Proof.
  destruct (acquire_volatile Host.quiet None initial_world) as [r w'] eqn:Hrun.
  assert (Hr : r = Ret "lab-.zip").
  { apply (f_equal fst) in Hrun. simpl in Hrun. rewrite <- Hrun.
    vm_compute. reflexivity. }
  subst r. exists w'.
  destruct (acquire_volatile_without_open_files Host.quiet None
              initial_world w' "lab-.zip" eq_refl Hrun)
    as (_ & (tr & Htrace & Hasked) & Hdumped & Hentries).
  split; [reflexivity|]. split; [reflexivity|].
  split; [rewrite Htrace; exact Hasked|].
  split; [exact Hdumped|].
  rewrite Hentries.
  assert (Hnet : netstat_entries (self w') = []).
  { apply (f_equal (fun r => netstat_entries (self (snd r)))) in Hrun.
    simpl in Hrun. rewrite <- Hrun. vm_compute. reflexivity. }
  assert (Hts : timestamp (self w') = "").
  { apply (f_equal (fun r => timestamp (self (snd r)))) in Hrun.
    simpl in Hrun. rewrite <- Hrun. vm_compute. reflexivity. }
  rewrite Hnet. unfold screenshot_entries, screenshot_name. rewrite Hts.
  reflexivity.
Defined.

(** *** The constructors *)

Lemma BaseSystem_init_inv (env : Env) (a : InitArgs) (w w' : World) :
  BaseSystem_init env a w = (Ret tt, w') ->
  let w0 := configured env a w in
  let archive := archive_name env None (self w0) in
  exists ps nlog tr,
    w' = {| self := set_zip_path archive
                      (acquired env None ps nlog (self w0));
            disk := <[archive := default [] (disk w !! archive)
                                 ++ archive_entries env
                                      (acquired env None ps nlog (self w0))]>
                      (disk w);
            trace := trace w0 ++ tr ++ [EvZipClose archive] |}.
Proof.
  intros Hrun w0 archive. rewrite BaseSystem_init_eq in Hrun.
  destruct (truthy_str (arg_process_name a) && truthy_int (arg_process_id a));
    [discriminate|].
  unfold acquisition, bind in Hrun. fold w0 in Hrun.
  destruct (acquire_volatile env None w0) as [[zp|e] w1] eqn:Hacq;
    [|discriminate].
  destruct (acquire_volatile_inv env None w0 w1 zp Hacq)
    as (ps & nlog & tr & _ & _ & -> & -> & _).
  unfold set_self in Hrun. injection Hrun as <-.
  by exists ps, nlog, tr.
Qed.

(** X15.  When the constructor of [BaseSystem] returns, [zip_path] and
    [output_path] are both the path of the archive,
    [<machine>-<timestamp>.zip], the archive is on the disk, and closing it
    is the last thing done: [dump_processes], which opens
    [self.output_path], appends to that archive. *)
Theorem init_archive_path (env : Env) (a : InitArgs) (w w' : World) :
  BaseSystem_init env a w = (Ret tt, w') ->
  let archive := get_machine_name env +:+ "-" +:+ timestamp_str env
                 +:+ ".zip" in
  zip_path (self w') = archive
  /\ output_path (self w') = archive
  /\ is_Some (disk w' !! archive)
  /\ last (trace w') = Some (EvZipClose archive).
Proof.
  intros Hrun archive.
  destruct (BaseSystem_init_inv env a w w' Hrun) as (ps & nlog & tr & ->).
  assert (Hname : archive_name env None (self (configured env a w)) = archive).
  { unfold archive_name.
    rewrite (default_output_endswith env (self (configured env a w))).
    reflexivity. }
  rewrite Hname. cbn [self disk trace zip_path output_path set_zip_path
                      acquired set_output_path].
  split; [done|]. split; [reflexivity|]. split.
  - rewrite lookup_insert_eq. by eexists.
  - by rewrite !app_assoc, last_snoc.
Qed.

Lemma init_archive_path_witness :
  exists w',
    BaseSystem_init Host.quiet (Host.args None None true) initial_world
    = (Ret tt, w')
    /\ zip_path (self w') = "lab-1704067200.5.zip"
    /\ output_path (self w') = "lab-1704067200.5.zip"
    /\ is_Some (disk w' !! "lab-1704067200.5.zip")
    /\ last (trace w') = Some (EvZipClose "lab-1704067200.5.zip").
Proof.
  assert (Hr : fst (BaseSystem_init Host.quiet (Host.args None None true)
                      initial_world) = Ret tt) by (vm_compute; reflexivity).
  destruct (BaseSystem_init Host.quiet (Host.args None None true)
              initial_world) as [r w'] eqn:Hrun.
  cbn [fst] in Hr. subst r. exists w'. split; [reflexivity|].
  exact (init_archive_path Host.quiet (Host.args None None true)
           initial_world w' Hrun).
Defined.

(** X16.  With [include_memory] off, [LinuxSystem] does what [BaseSystem]
    does and nothing more: no memory map is read, no region is read, and
    [extract_dumps] has no effect. *)
Theorem linux_without_memory (env : Env) (a : InitArgs) (w : World) :
  arg_include_memory a = false ->
  LinuxSystem_init env a w = BaseSystem_init env a w.
Proof.
  intros Hmem. unfold LinuxSystem_init. unfold bind at 1.
  destruct (BaseSystem_init env a w) as [[[]|e] w1] eqn:Hrun; [|done].
  destruct (BaseSystem_init_inv env a w w1 Hrun) as (ps & nlog & tr & ->).
  unfold bind, get_self. cbn. by rewrite Hmem.
Qed.

Lemma linux_without_memory_witness :
  let a := {| arg_process_name := None; arg_process_id := None;
              arg_take_screenshot := true; arg_include_memory := false;
              arg_include_open := true; arg_extract_dumps := true |} in
  arg_include_memory a = false
  /\ LinuxSystem_init Host.quiet a initial_world
     = BaseSystem_init Host.quiet a initial_world.
Proof.
  intros a. split; [reflexivity|].
  exact (linux_without_memory Host.quiet a initial_world eq_refl).
Defined.

(** ** The network snapshot, continued *)

Lemma network_lines_length (env : Env) (conns : list sconn) :
  forall network w L w',
    network_lines env conns network w = (Ret L, w') ->
    List.length L
    = (List.length network + List.length (List.filter established conns))%nat.
Proof.
  induction conns as [|c conns IH]; intros network w L w'; simpl.
  - intros [= <- _]. lia.
  - unfold established at 1.
    destruct (laddr c) as [l|], (raddr c) as [r|]; simpl;
      try (intros H; by apply IH in H).
    unfold bind, emit, lift. simpl.
    destruct (Process_name env (conn_pid c)) as [pname|e]; simpl; [|done].
    intros H. apply IH in H. rewrite H, length_app. simpl. lia.
Qed.

(** X17.  The network log has one line for each connection that has both
    a local and a remote address, and none for the others (a listening
    socket has no remote address); it is empty when listing the
    connections is refused. *)
Theorem get_network_line_count (env : Env) (w w' : World)
    (L : list string) :
  get_network env w = (Ret L, w') ->
  match net_connections env with
  | Ret conns =>
      List.length L = List.length (List.filter established conns)
  | Raise e => e = AccessDenied /\ L = []
  end.
Proof.
  unfold get_network, bind, try_except, emit, lift, ret. simpl.
  destruct (net_connections env) as [conns|e]; simpl.
  - intros H. by apply network_lines_length in H.
  - case_bool_decide; simpl; [|done]. by intros [= <- _].
Qed.

Lemma get_network_line_count_witness :
  let listening := {| laddr := Some {| ip := "0.0.0.0"; port := 22 |};
                      raddr := None; conn_pid := Some 7 |} in
  let env := Host.host (Ret [listening; Host.established; listening])
               (fun _ => Ret "sshd") Host.layout Host.readv_ok in
  exists w',
    get_network env initial_world
    = (Ret ["2024-01-01 00:00:00 10.0.0.2 22 10.0.0.9 50000 sshd"], w')
    /\ List.length ["2024-01-01 00:00:00 10.0.0.2 22 10.0.0.9 50000 sshd"]
       = List.length
           (List.filter established
              [listening; Host.established; listening]).
Proof.
  intros listening env. eexists. split; [reflexivity|].
  exact (get_network_line_count env initial_world _ _ eq_refl).
Defined.

(** ** The open files, continued *)

Lemma chars_length (s x : string) : x ∈ Str.chars s -> String.length x = 1%nat.
Proof.
  induction s as [|c s IH]; simpl; intros Hin.
  - by apply elem_of_nil in Hin.
  - apply elem_of_cons in Hin as [-> | Hin]; [done | by apply IH].
Qed.

Lemma collect_paths_from (ps : list proc_dict) :
  forall a0 b0 c0 a b c x,
    collect_paths ps a0 b0 c0 = (a, b, c) ->
    (x ∈ a -> x ∈ a0 \/ exists d, d ∈ ps /\ x ∈ default [] (open_files d))
    /\ (x ∈ b -> x ∈ b0 \/ exists d, d ∈ ps /\ x ∈ default [] (memory_maps d))
    /\ (x ∈ c -> x ∈ c0 \/ String.length x = 1%nat).
Proof.
  induction ps as [|d ps IH]; intros a0 b0 c0 a b c x; simpl.
  - intros [= <- <- <-]. auto.
  - intros Hrun. destruct (IH _ _ _ _ _ _ x Hrun) as (Ha & Hb & Hc).
    split; [|split].
    + intros Hin. destruct (Ha Hin) as [H0 | (d' & Hd' & Hx)].
      * destruct (truthy_list (open_files d)); [|by left].
        apply elem_of_app in H0 as [H0 | H0]; [by left|].
        right. exists d. split; [left | done].
      * right. exists d'. split; [by right | done].
    + intros Hin. destruct (Hb Hin) as [H0 | (d' & Hd' & Hx)].
      * destruct (truthy_list (memory_maps d)); [|by left].
        apply elem_of_app in H0 as [H0 | H0]; [by left|].
        right. exists d. split; [left | done].
      * right. exists d'. split; [by right | done].
    + intros Hin. destruct (Hc Hin) as [H0 | Hlen]; [|by right].
      destruct (truthy_str (exe d)); [|by left].
      apply elem_of_app in H0 as [H0 | H0]; [by left|].
      right. by apply chars_length in H0.
Qed.

(** X18.  Every path [dump_loaded_files] returns is an open file or a
    memory-mapped file of one of the processes chosen.  The path of an
    executable is not collected for being the executable: [exe_paths +=
    proc_exe] adds the characters of the path, and a path of one character
    is not kept. *)
Theorem dump_loaded_files_sources (env : Env) (w w' : World)
    (L : list string) (path : string) :
  dump_loaded_files env w = (Ret L, w') ->
  path ∈ L ->
  exists ps d,
    fst (get_processes_dict env w) = Ret ps
    /\ d ∈ ps
    /\ (path ∈ default [] (open_files d)
        \/ path ∈ default [] (memory_maps d)).
Proof.
  rewrite dump_loaded_files_eq, get_processes_dict_eq. simpl.
  destruct (process_choice env _ _) as [ps|e] eqn:Hps; [|done].
  intros [= <- _] Hin.
  rewrite list_elem_of_In, List.filter_In, <- list_elem_of_In in Hin.
  destruct Hin as [Hin Hkeep].
  rewrite elem_of_elements, elem_of_list_to_set in Hin.
  apply keep_path_true in Hkeep as [Hlen _].
  unfold candidates in Hin.
  destruct (collect_paths ps [] [] []) as [[a b] c] eqn:Hcol.
  destruct (collect_paths_from ps _ _ _ _ _ _ path Hcol) as (Ha & Hb & Hc).
  exists ps.
  apply elem_of_app in Hin as [Hin | Hin].
  - destruct (Ha Hin) as [H0 | (d & Hd & Hx)]; [by apply elem_of_nil in H0|].
    exists d. auto.
  - apply elem_of_app in Hin as [Hin | Hin].
    + destruct (Hb Hin) as [H0 | (d & Hd & Hx)];
        [by apply elem_of_nil in H0|].
      exists d. auto.
    + destruct (Hc Hin) as [H0 | H1]; [by apply elem_of_nil in H0 | lia].
Qed.

Lemma dump_loaded_files_sources_witness :
  dump_loaded_files Host.quiet initial_world
  = (Ret ["/tmp/exact"; "/tmp/a"; "/tmp/big"],
     add_trace [EvProcessIter] initial_world)
  /\ "/tmp/a" ∈ ["/tmp/exact"; "/tmp/a"; "/tmp/big"]
  /\ exe Host.cat = Some "/bin/cat"
  /\ stat_listing Host.quiet "/bin/cat" = Some 35000
  /\ exists ps d,
       fst (get_processes_dict Host.quiet initial_world) = Ret ps
       /\ d ∈ ps
       /\ ("/tmp/a" ∈ default [] (open_files d)
           \/ "/tmp/a" ∈ default [] (memory_maps d)).
Proof.
  assert (Hrun : dump_loaded_files Host.quiet initial_world
                 = (Ret ["/tmp/exact"; "/tmp/a"; "/tmp/big"],
                    add_trace [EvProcessIter] initial_world)).
  { vm_compute. reflexivity. }
  assert (Hin : "/tmp/a" ∈ ["/tmp/exact"; "/tmp/a"; "/tmp/big"]).
  { apply list_elem_of_further, list_elem_of_here. }
  split; [exact Hrun|]. split; [exact Hin|]. split; [reflexivity|].
  split; [reflexivity|].
  exact (dump_loaded_files_sources Host.quiet initial_world _ _ "/tmp/a"
           Hrun Hin).
Defined.


(** An input/output error while an open file is read leaves
    [acquire_volatile]: the archive is closed with the screenshot and the
    tables in it, and no path is returned. *)
Lemma copy_failure_leaves_acquire_volatile :
  let w0 := configured Lab.bad_sector (Host.args None None true)
              initial_world in
  fst (acquire_volatile Lab.bad_sector None w0) = Raise OSError
  /\ (default [] (disk (snd (acquire_volatile Lab.bad_sector None w0))
                  !! "lab-1704067200.5.zip")).*1
     = ["lab-1704067200.5.png"; "processes.json"; "open_files.json"]
  /\ last (trace (snd (acquire_volatile Lab.bad_sector None w0)))
     = Some (EvZipClose "lab-1704067200.5.zip").
Proof. vm_compute. done. Qed.

(** ** Archives only grow *)

Section Grows.

Lemma grows_same_disk {A} (m : M A) :
  (forall w, disk (snd (m w)) = disk w) -> grows m.
Proof. intros H w path. by rewrite H. Qed.

Lemma grows_ret {A} (a : A) : grows (ret a).
Proof. by apply grows_same_disk. Qed.

Lemma grows_raise {A} e : grows (@raise A e).
Proof. by apply grows_same_disk. Qed.

Lemma grows_lift {A} (r : res A) : grows (lift r).
Proof. by apply grows_same_disk. Qed.

Lemma grows_get_self : grows get_self.
Proof. by apply grows_same_disk. Qed.

Lemma grows_set_self f : grows (set_self f).
Proof. by apply grows_same_disk. Qed.

Lemma grows_emit e : grows (emit e).
Proof. by apply grows_same_disk. Qed.

Lemma grows_zip_entry path ename p : grows (zip_entry path ename p).
Proof.
  intros w other. unfold zip_entry. simpl.
  destruct (decide (path = other)) as [<-|Hne].
  - rewrite lookup_insert_eq. simpl. by apply prefix_app_r.
  - by rewrite lookup_insert_ne.
Qed.

Lemma grows_bind {A B} (m : M A) (k : A -> M B) :
  grows m -> (forall a, grows (k a)) -> grows (bind m k).
Proof.
  intros Hm Hk w path. unfold bind. specialize (Hm w path).
  destruct (m w) as [[a|e] w1]; simpl in *; [|done].
  etrans; [exact Hm | apply Hk].
Qed.

Lemma grows_try_except {A} (m : M A) cls (h : M A) :
  grows m -> grows h -> grows (try_except m cls h).
Proof.
  intros Hm Hh w path. unfold try_except. specialize (Hm w path).
  destruct (m w) as [[a|e] w1]; simpl in *; [done|].
  destruct (subclass e cls); [|done].
  etrans; [exact Hm | apply Hh].
Qed.

Lemma grows_try_excepts {A} (m : M A) (clauses : list (exn * M A)) :
  grows m -> Forall (fun c => grows (snd c)) clauses ->
  grows (try_excepts m clauses).
Proof.
  intros Hm Hc w path. unfold try_excepts. specialize (Hm w path).
  destruct (m w) as [[a|e] w1]; simpl in *; [done|].
  induction Hc as [|[cls h] clauses Hh Hc IH]; simpl; [done|].
  destruct (subclass e cls); [|exact IH].
  etrans; [exact Hm | apply Hh].
Qed.

Lemma grows_when b (m : M unit) : grows m -> grows (when b m).
Proof. destruct b; [done|]. intros _. apply grows_ret. Qed.

Lemma grows_for_each {A} (l : list A) (body : A -> M unit) :
  (forall x, grows (body x)) -> grows (for_each l body).
Proof.
  intros Hb. induction l as [|x l IH]; simpl.
  - apply grows_ret.
  - apply grows_bind; [apply Hb | intros _; apply IH].
Qed.

Lemma grows_with_zip {A} path (body : M A) :
  grows body -> grows (with_zip path body).
Proof.
  intros Hb w other. unfold with_zip.
  set (w1 := {| self := self w; disk := _; trace := _ |}).
  specialize (Hb w1 other). destruct (body w1) as [r w2]. simpl in *.
  etrans; [|exact Hb]. unfold w1. simpl.
  destruct (decide (path = other)) as [<-|Hne].
  - by rewrite lookup_insert_eq.
  - by rewrite lookup_insert_ne.
Qed.

End Grows.

Create HintDb grows.

#[local] Hint Resolve grows_ret grows_raise grows_lift grows_get_self
  grows_set_self grows_emit grows_zip_entry grows_bind grows_try_except
  grows_when grows_for_each grows_with_zip : grows.

Ltac grows_tac :=
  repeat first
    [ progress intros
    | match goal with
      | |- grows (if ?b then _ else _) => destruct b
      | |- grows (match ?x with _ => _ end) => destruct x
      | |- grows (let '(_, _) := ?x in _) => destruct x
      | |- Forall _ (_ :: _) => constructor
      | |- Forall _ [] => constructor
      end
    | solve [eauto with grows]
    | apply grows_bind
    | apply grows_try_except
    | apply grows_try_excepts
    | apply grows_when
    | apply grows_for_each
    | apply grows_with_zip
    | progress simpl ].

Section GrowsMethods.

Variable env : Env.

Lemma grows_network_lines conns : forall network,
  grows (network_lines env conns network).
Proof.
  induction conns as [|c conns IH]; intros network; simpl; grows_tac.
Qed.

Lemma grows_get_network : grows (get_network env).
Proof. unfold get_network. grows_tac. apply grows_network_lines. Qed.

Lemma grows_get_processes_dict : grows (get_processes_dict env).
Proof. unfold get_processes_dict. grows_tac. Qed.

Lemma grows_dump_loaded_files : grows (dump_loaded_files env).
Proof.
  unfold dump_loaded_files. apply grows_bind.
  - apply grows_get_processes_dict.
  - intros ps. destruct (collect_paths ps [] [] []) as [[a b] c].
    apply grows_ret.
Qed.

Lemma grows_take_screenshot : grows (take_screenshot env).
Proof. unfold take_screenshot. grows_tac. Qed.

Lemma grows_copy_open_file archive f : grows (copy_open_file env archive f).
Proof. unfold copy_open_file. grows_tac. Qed.

Lemma grows_acquire_volatile out : grows (acquire_volatile env out).
Proof.
  unfold acquire_volatile, get_processes.
  pose proof grows_get_processes_dict.
  pose proof grows_get_network.
  pose proof grows_dump_loaded_files.
  pose proof grows_take_screenshot.
  pose proof grows_copy_open_file.
  grows_tac.
Qed.

Lemma grows_BaseSystem_init a : grows (BaseSystem_init env a).
Proof.
  unfold BaseSystem_init. pose proof grows_acquire_volatile. grows_tac.
Qed.

Lemma grows_parse_mem_map p p_name : grows (parse_mem_map env p p_name).
Proof. apply grows_same_disk. apply parse_mem_map_disk. Qed.

Lemma grows_read_regions p maps sink : grows (read_regions env p maps sink).
Proof. apply grows_same_disk. apply read_regions_disk. Qed.

Lemma grows_dump_process archive proc : grows (dump_process env archive proc).
Proof.
  unfold dump_process.
  pose proof grows_parse_mem_map. pose proof grows_read_regions.
  grows_tac.
Qed.

Lemma grows_dump_processes : grows (dump_processes env).
Proof.
  unfold dump_processes. pose proof grows_dump_process. grows_tac.
Qed.

End GrowsMethods.

(** X20.  The run never takes an entry out of an archive and never changes
    one: whether [LinuxSystem.__init__] returns or raises, every archive of
    the disk holds the entries it held, in their order, followed by those
    the run added. *)
Theorem archives_only_grow (env : Env) (a : InitArgs) (w : World)
    (path : string) :
  default [] (disk w !! path)
  `prefix_of` default [] (disk (snd (LinuxSystem_init env a w)) !! path).
Proof.
  revert w path. change (grows (LinuxSystem_init env a)).
  unfold LinuxSystem_init.
  pose proof (grows_BaseSystem_init env).
  pose proof (grows_dump_processes env).
  grows_tac.
Qed.

(** ** The constructor of [LinuxSystem] *)

Section DumpKeepsSelf.

Variable env : Env.

Lemma read_bytes_self p a n w : self (snd (read_bytes env p a n w)) = self w.
Proof.
  unfold read_bytes. destruct (n <? 0); [done|].
  unfold bind, emit, ret. simpl.
  destruct (process_vm_readv env p a n) as [rv data].
  by destruct (rv =? -1).
Qed.

Lemma read_regions_self p maps : forall sink w,
  self (snd (read_regions env p maps sink w)) = self w.
Proof.
  induction maps as [|m maps IH]; intros sink w; simpl; [done|].
  unfold bind at 1.
  pose proof (read_bytes_self p (fst m) (snd m - fst m) w) as Hs.
  destruct (read_bytes env p (fst m) (snd m - fst m) w) as [[c|ex] w1];
    simpl in *; [|done].
  destruct (truthy_bytes c).
  - unfold bind, lift.
    destruct (tmpfile_write env sink (default [] c)); simpl; [|done].
    by rewrite IH.
  - by rewrite IH.
Qed.

Lemma parse_mem_map_self p p_name w :
  self (snd (parse_mem_map env p p_name w)) = self w.
Proof.
  unfold parse_mem_map, try_excepts, bind, emit, lift, ret. simpl.
  destruct (proc_maps env p) as [lines|ex]; simpl.
  - destruct (Maps.parse_lines [] lines) as [L|ex]; simpl; [done|].
    by repeat case_bool_decide.
  - by repeat case_bool_decide.
Qed.

Lemma dump_process_self archive proc w :
  self (snd (dump_process env archive proc w)) = self w.
Proof.
  unfold dump_process. unfold bind at 1.
  pose proof (parse_mem_map_self (Process_ID proc) (Name proc) w) as Hs1.
  destruct (parse_mem_map env (Process_ID proc) (Name proc) w)
    as [[maps|ex] w1]; simpl in *; [|done].
  case_bool_decide; [done|].
  unfold try_excepts, bind at 1.
  pose proof (read_regions_self (Process_ID proc) maps [] w1) as Hs2.
  destruct (read_regions env (Process_ID proc) maps [] w1)
    as [[sink|ex] w2]; simpl in *.
  - unfold bind, lift, zip_entry.
    destruct (zip_write_tmp env _ sink) as [[]|ex]; simpl; [congruence|].
    destruct ex; simpl; congruence.
  - destruct ex; simpl; congruence.
Qed.

Lemma for_each_self {A} (l : list A) (body : A -> M unit) :
  (forall x w, self (snd (body x w)) = self w) ->
  forall w, self (snd (for_each l body w)) = self w.
Proof.
  intros Hb. induction l as [|x l IH]; intros w; simpl; [done|].
  unfold bind. specialize (Hb x w).
  destruct (body x w) as [[[]|e] w1]; simpl in *; [|done].
  by rewrite IH.
Qed.

Lemma dump_processes_self w : self (snd (dump_processes env w)) = self w.
Proof.
  unfold dump_processes, bind at 1, get_self.
  unfold bind, with_zip.
  match goal with
  | |- context [for_each ?l ?body ?w1] =>
      pose proof (for_each_self l body
                    (fun x w0 => dump_process_self _ x w0) w1) as Hloop;
      destruct (for_each l body w1) as [[[]|e] w2]
  end; simpl in *; done.
Qed.

End DumpKeepsSelf.

(** X22.  With [include_memory] on, [LinuxSystem.__init__] is the
    constructor of [BaseSystem], then [dump_processes] on the archive the
    constructor wrote; the extraction of the dumps is started only with
    [extract_dumps] on and only when [dump_processes] has returned: an
    exception of the dump leaves the constructor and skips it. *)
Theorem linux_with_memory (env : Env) (a : InitArgs) (w w1 : World) :
  arg_include_memory a = true ->
  BaseSystem_init env a w = (Ret tt, w1) ->
  let archive := get_machine_name env +:+ "-" +:+ timestamp_str env
                 +:+ ".zip" in
  output_path (self w1) = archive
  /\ LinuxSystem_init env a w
     = match dump_processes env w1 with
       | (Ret _, w2) =>
           (Ret tt,
            if arg_extract_dumps a
            then add_trace [EvExtractDumps archive] w2
            else w2)
       | (Raise e, w2) => (Raise e, w2)
       end.
Proof.
  intros Hmem Hrun archive.
  destruct (BaseSystem_init_inv env a w w1 Hrun) as (ps & nlog & tr & Hw1).
  assert (Hname : archive_name env None (self (configured env a w)) = archive).
  { unfold archive_name.
    rewrite (default_output_endswith env (self (configured env a w))).
    reflexivity. }
  assert (Hout : output_path (self w1) = archive).
  { rewrite Hw1. cbn [self output_path set_zip_path acquired
                      set_output_path]. reflexivity. }
  assert (Hflags : include_memory (self w1) = true
                   /\ extract_dumps (self w1) = arg_extract_dumps a).
  { rewrite Hw1. cbn. by rewrite Hmem. }
  destruct Hflags as [Hinc Hext].
  split; [exact Hout|].
  unfold LinuxSystem_init.
  erewrite bind_step by exact Hrun.
  unfold bind at 1, get_self. rewrite Hinc. unfold when at 1.
  unfold bind at 1.
  pose proof (dump_processes_self env w1) as Hself.
  destruct (dump_processes env w1) as [[[]|e] w2]; [|done].
  simpl in Hself. unfold bind, get_self. rewrite Hself, Hext, Hout.
  by destruct (arg_extract_dumps a).
Qed.

Lemma linux_with_memory_witness :
  let a := {| arg_process_name := None; arg_process_id := None;
              arg_take_screenshot := true; arg_include_memory := true;
              arg_include_open := false; arg_extract_dumps := true |} in
  exists w1,
    arg_include_memory a = true
    /\ BaseSystem_init Host.quiet a initial_world = (Ret tt, w1)
    /\ output_path (self w1) = "lab-1704067200.5.zip"
    /\ LinuxSystem_init Host.quiet a initial_world
       = match dump_processes Host.quiet w1 with
         | (Ret _, w2) =>
             (Ret tt, add_trace [EvExtractDumps "lab-1704067200.5.zip"] w2)
         | (Raise e, w2) => (Raise e, w2)
         end.
Proof.
  intros a.
  assert (Hr : fst (BaseSystem_init Host.quiet a initial_world) = Ret tt)
    by (vm_compute; reflexivity).
  destruct (BaseSystem_init Host.quiet a initial_world) as [r w1] eqn:Hrun.
  cbn [fst] in Hr. subst r. exists w1.
  split; [reflexivity|]. split; [reflexivity|].
  exact (linux_with_memory Host.quiet a initial_world w1 eq_refl Hrun).
Defined.

(** ** Selection by name *)

(** X23.  With no process identifier, a non-empty [process_name] chooses
    the processes whose name is the given one up to the case of the
    letters, in the order psutil gave them; psutil is asked for all the
    processes, and no exception is raised when none has the name. *)
Theorem get_processes_dict_by_name (env : Env) (w : World) (n : string) :
  process_name (self w) = Some n -> n <> "" ->
  truthy_int (process_id (self w)) = false ->
  exists ps,
    get_processes_dict env w = (Ret ps, add_trace [EvProcessIter] w)
    /\ (forall d, d ∈ ps <->
                  d ∈ process_iter env /\ Str.lower (name d) = Str.lower n)
    /\ ps `sublist_of` process_iter env.
Proof.
  intros Hn Hne Hid. rewrite get_processes_dict_eq.
  unfold process_choice, selector_event. rewrite Hid, Hn.
  destruct n as [|c n]; [done|]. cbn [truthy_str Str.is_empty negb default].
  eexists. split; [reflexivity|]. split.
  - intros d.
    rewrite list_elem_of_In, List.filter_In, <- list_elem_of_In.
    by rewrite String.eqb_eq.
  - induction (process_iter env) as [|d l IH]; simpl; [done|].
    destruct (String.eqb _ _).
    + by apply sublist_skip.
    + by apply sublist_cons.
Qed.

Lemma get_processes_dict_by_name_witness :
  let w := with_selectors (Some "CAT") None initial_world in
  process_name (self w) = Some "CAT" /\ "CAT" <> ""
  /\ truthy_int (process_id (self w)) = false
  /\ exists ps,
       get_processes_dict Host.quiet w = (Ret ps, add_trace [EvProcessIter] w)
       /\ (Host.cat ∈ ps <->
           Host.cat ∈ process_iter Host.quiet
           /\ Str.lower (name Host.cat) = Str.lower "CAT")
       /\ ps `sublist_of` process_iter Host.quiet.
Proof.
  intros w. split; [reflexivity|]. split; [discriminate|].
  split; [reflexivity|].
  destruct (get_processes_dict_by_name Host.quiet w "CAT" eq_refl
              ltac:(discriminate) eq_refl) as (ps & Hrun & Hmem & Hsub).
  exists ps. split; [exact Hrun|]. split; [apply Hmem | exact Hsub].
Defined.

(** ** The pattern, read as a pattern *)

(** X24.  The match of a layout line is the match of the pattern
    [([a-fA-F0-9]+)-([a-fA-F0-9]+)\s(r|-)] at the start of the line: a line
    is accepted exactly when it starts with a non-empty run of hexadecimal
    digits, a dash, a second such run, one white-space character and [r] or
    [-], and the groups are these two runs and the flag; a line has at most
    one such reading. *)
Theorem layout_line_match (line g1 g2 : string) (flag : ascii) :
  (Maps.re_match line = Some (g1, g2, flag) <-> Maps.matches line g1 g2 flag)
  /\ forall g1' g2' flag',
       Maps.matches line g1 g2 flag -> Maps.matches line g1' g2' flag' ->
       g1' = g1 /\ g2' = g2 /\ flag' = flag.
Proof.
  split; [apply MapsFacts.re_match_iff|].
  intros g1' g2' flag' H1 H2.
  apply MapsFacts.re_match_iff in H1, H2. rewrite H1 in H2.
  by injection H2 as -> -> ->.
Qed.

Lemma layout_line_match_witness :
  Maps.matches "7f00-7fff r-xp 0" "7f00" "7fff" "r"
  /\ forall g1' g2' flag',
       Maps.matches "7f00-7fff r-xp 0" g1' g2' flag' ->
       g1' = "7f00" /\ g2' = "7fff" /\ flag' = "r"%char.
Proof.
  assert (Hm : Maps.matches "7f00-7fff r-xp 0" "7f00" "7fff" "r").
  { apply (proj1 (layout_line_match "7f00-7fff r-xp 0" "7f00" "7fff" "r")).
    reflexivity. }
  split; [exact Hm|].
  intros g1' g2' flag' H'.
  exact (proj2 (layout_line_match "7f00-7fff r-xp 0" "7f00" "7fff" "r")
           g1' g2' flag' Hm H').
Defined.
